(** * Bencode codec (bencode/decoder.py, bencode/encoder.py)

    A shallow embedding of the [Decoder] and [Encoder] classes of the
    [bencode] package, together with the Python primitives they rely on
    ([bytes] indexing, slicing and [find], [int(bytes)], [str(int)],
    [str.encode]), and the properties of the codec stated over it.

    Conventions of the embedding:
    - a Python [int] is a [Z]; positions are [Z] as well, since the code
      never rules out negative positions and Python gives them a meaning;
    - [bytes] is a [list ascii] (one [ascii] is one byte);
    - an exception is a value of [exn]; a routine without loops returns a
      [outcome]; the routines with a [while] loop or recursion through the
      input take a [fuel] argument and return [option (outcome _)], where
      [None] says that the fuel ran out before the code returned;
    - integers are arbitrary-precision; the interpreter's limit on the
      number of digits of an integer converted to and from text
      ([max_str_digits]) is part of [py_int] and [py_str];
    - the interpreter's recursion limit is not modelled: nesting is bounded
      by the fuel only, in the decoder and in the encoder alike. *)

From Stdlib Require Import ZArith List Ascii String Bool Lia.
From Stdlib Require DecimalFacts DecimalPos DecimalN DecimalZ.
Import Init.Decimal.
Import ListNotations.

#[local] Set Warnings "-register-all".
#[local] Open Scope Z_scope.

(** ** Bytes and the Python primitives on them *)

Definition bytes := list ascii.

(** A [bytes] literal: [B "spam"] is [b'spam']. *)
Definition B (s : string) : bytes := list_ascii_of_string s.

(** [ord(c)] of a byte. *)
Definition ord (c : ascii) : Z := Z.of_N (N_of_ascii c).

(** [len(data)]. *)
Definition len {A} (l : list A) : Z := Z.of_nat (List.length l).

Fixpoint bytes_eqb (x y : bytes) : bool :=
  match x, y with
  | [], [] => true
  | a :: x', c :: y' => Ascii.eqb a c && bytes_eqb x' y'
  | _, _ => false
  end.

(** ** Exceptions *)

(** Modelled from the spec: the exception classes of [bencode/exceptions.py],
    a module the decoder and the encoder import and that is not among the
    source files.  The spec gives four error kinds per direction and a
    generic top-level error for the encoder; they are taken to be distinct
    classes.  The remaining constructors are built-in exceptions of Python
    the code can run into. *)
Inductive exn : Type :=
| DecodeIntegerError
| DecodeStringError
| DecodeListError
| DecodeDictionaryError
| EncodeError
| EncodeIntegerError
| EncodeStringError
| EncodeListError
| EncodeDictionaryError
| IndexError
| AttributeError
| UnicodeEncodeError
| ValueError.

(** The outcome of a call that returns or raises. *)
Inductive outcome (A : Type) : Type :=
| Ok (a : A)
| Raise (e : exn).

Arguments Ok {A} a.
Arguments Raise {A} e.

Definition bind {A C} (r : outcome A) (k : A -> outcome C) : outcome C :=
  match r with
  | Ok a => k a
  | Raise e => Raise e
  end.

(** The outcome of a call that may also fail to return: [None] is
    "no answer within the fuel given". *)
Definition fueled (A : Type) : Type := option (outcome A).

Definition fbind {A C} (r : fueled A) (k : A -> fueled C) : fueled C :=
  match r with
  | Some (Ok a) => k a
  | Some (Raise e) => Some (Raise e)
  | None => None
  end.

(** A call of a routine that always returns, made from one that may not. *)
Definition lift {A} (r : outcome A) : fueled A := Some r.

Declare Scope py_scope.
Delimit Scope py_scope with py.
Notation "x <- r ;; k" := (bind r (fun x => k))
  (at level 61, r at next level, right associativity) : py_scope.
Notation "' p <- r ;; k" := (bind r (fun x => let p := x in k))
  (at level 61, p pattern, r at next level, right associativity) : py_scope.
Notation "x <~ r ;; k" := (fbind r (fun x => k))
  (at level 61, r at next level, right associativity) : py_scope.
Notation "' p <~ r ;; k" := (fbind r (fun x => let p := x in k))
  (at level 61, p pattern, r at next level, right associativity) : py_scope.
#[local] Open Scope py_scope.

(** [data[i]]: a negative index counts from the end; out of range raises
    [IndexError]. *)
Definition getitem (data : bytes) (i : Z) : outcome ascii :=
  let i' := if i <? 0 then i + len data else i in
  if (i' <? 0) || (len data <=? i') then Raise IndexError
  else match nth_error data (Z.to_nat i') with
       | Some c => Ok c
       | None => Raise IndexError
       end.

(** The adjustment of a slice bound: a negative bound counts from the
    end, and the result is clamped to [0 .. len]. *)
Definition adjust_bound (n i : Z) : Z :=
  let i' := if i <? 0 then i + n else i in
  if i' <? 0 then 0 else if n <? i' then n else i'.

(** [data[lo:hi]]. *)
Definition slice (data : bytes) (lo hi : Z) : bytes :=
  let lo' := adjust_bound (len data) lo in
  let hi' := adjust_bound (len data) hi in
  firstn (Z.to_nat (hi' - lo')) (skipn (Z.to_nat lo') data).

(** The index of the first [c] in [l], counted from [i]; [-1] if none. *)
Fixpoint find_from (c : ascii) (l : bytes) (i : Z) : Z :=
  match l with
  | [] => -1
  | x :: l' => if Ascii.eqb x c then i else find_from c l' (i + 1)
  end.

(** [data.find(c, start)] for a one-byte pattern [c]: a negative start
    counts from the end and is clamped to 0; a start beyond the end finds
    nothing. *)
Definition find (data : bytes) (c : ascii) (start : Z) : Z :=
  let s := if start <? 0 then Z.max 0 (start + len data) else start in
  if len data <? s then -1
  else find_from c (skipn (Z.to_nat s) data) s.

(** *** [int(bytes)] *)

(** The interpreter's limit on the number of digits in a conversion
    between [int] and text in base 10 ([sys.get_int_max_str_digits()],
    4300 unless configured otherwise): beyond it [int] and [str] raise
    [ValueError]. *)
Definition max_str_digits : Z := 4300.

Definition is_digit (c : ascii) : bool :=
  (ord "0" <=? ord c) && (ord c <=? ord "9").

(** The white space [int] strips: tab, line feed, vertical tab, form
    feed, carriage return and space. *)
Definition is_space (c : ascii) : bool :=
  ((9 <=? ord c) && (ord c <=? 13)) || (ord c =? 32).

Fixpoint skip_space (s : bytes) : bytes :=
  match s with
  | c :: s' => if is_space c then skip_space s' else s
  | [] => []
  end.

(** The run of digits and single underscores at the head of [s]:
    [acc] is the value read so far, [nd] the number of digits read,
    [prev_us] says that the previous byte was an underscore.  Two
    underscores in a row, or an underscore at the end of the run, are
    errors ([None]). *)
Fixpoint scan_digits (s : bytes) (acc : Z) (nd : nat) (prev_us : bool)
  : option (Z * nat * bytes) :=
  match s with
  | c :: s' =>
      if is_digit c then scan_digits s' (10 * acc + (ord c - ord "0")) (S nd) false
      else if Ascii.eqb c "_" then
             if prev_us then None else scan_digits s' acc nd true
      else if prev_us then None else Some (acc, nd, s)
  | [] => if prev_us then None else Some (acc, nd, [])
  end.

(** [int(s)] for [s : bytes], base 10; [None] is [ValueError].
    Leading and trailing white space, one sign, and single underscores
    between digits are accepted; leading zeros are accepted.  A literal
    of more than [max_str_digits] digits (leading zeros counted, sign,
    white space and underscores not) is refused. *)
Definition py_int (s : bytes) : option Z :=
  let s1 := skip_space s in
  let '(neg, s2) :=
    match s1 with
    | c :: r => if Ascii.eqb c "+" then (false, r)
                else if Ascii.eqb c "-" then (true, r)
                else (false, s1)
    | [] => (false, s1)
    end in
  match s2 with
  | c :: _ => if Ascii.eqb c "_" then None else
      match scan_digits s2 0 0 false with
      | Some (v, nd, rest) =>
          match nd, skip_space rest with
          | S _, [] => if max_str_digits <? Z.of_nat nd then None
                       else Some (if neg then - v else v)
          | _, _ => None
          end
      | None => None
      end
  | [] => None
  end.

(** *** [str(int)] *)

Definition digit_char (d : Z) : ascii := ascii_of_N (Z.to_N (ord "0" + d)).

Fixpoint uint_bytes (u : uint) : bytes :=
  match u with
  | Nil => []
  | D0 u' => digit_char 0 :: uint_bytes u'
  | D1 u' => digit_char 1 :: uint_bytes u'
  | D2 u' => digit_char 2 :: uint_bytes u'
  | D3 u' => digit_char 3 :: uint_bytes u'
  | D4 u' => digit_char 4 :: uint_bytes u'
  | D5 u' => digit_char 5 :: uint_bytes u'
  | D6 u' => digit_char 6 :: uint_bytes u'
  | D7 u' => digit_char 7 :: uint_bytes u'
  | D8 u' => digit_char 8 :: uint_bytes u'
  | D9 u' => digit_char 9 :: uint_bytes u'
  end.

(** The decimal text of [n]: its digits, with a minus sign before them
    when [n] is negative. *)
Definition str_int (n : Z) : bytes :=
  match Z.to_int n with
  | Pos u => uint_bytes u
  | Neg u => "-"%char :: uint_bytes u
  end.

(** [str(n).encode()]: the decimal text of [n], or [ValueError] when [n]
    has more than [max_str_digits] digits. *)
Definition py_str (n : Z) : outcome bytes :=
  if max_str_digits <? len (str_int (Z.abs n)) then Raise ValueError
  else Ok (str_int n).

(** *** [str] and [str.encode()] *)

(** A Python [str]: its code points (each below 0x110000). *)
Definition pystr := list N.

Definition byte_of_N (n : N) : ascii := ascii_of_N n.

(** The UTF-8 encoding of one code point; a surrogate cannot be encoded. *)
Definition utf8_char (c : N) : outcome bytes :=
  (if c <? 128 then Ok [byte_of_N c]
   else if c <? 2048 then
     Ok [byte_of_N (192 + c / 64); byte_of_N (128 + c mod 64)]
   else if (55296 <=? c) && (c <=? 57343) then Raise UnicodeEncodeError
   else if c <? 65536 then
     Ok [byte_of_N (224 + c / 4096); byte_of_N (128 + (c / 64) mod 64);
         byte_of_N (128 + c mod 64)]
   else
     Ok [byte_of_N (240 + c / 262144); byte_of_N (128 + (c / 4096) mod 64);
         byte_of_N (128 + (c / 64) mod 64); byte_of_N (128 + c mod 64)])%N.

(** [s.encode()]. *)
Fixpoint str_encode (s : pystr) : outcome bytes :=
  match s with
  | [] => Ok []
  | c :: s' =>
      x <- utf8_char c ;;
      r <- str_encode s' ;;
      Ok (x ++ r)
  end.

(** ** Values *)

(** The Python objects the codec meets.  [VBool] is apart from [VInt]
    because [bool] passes [isinstance(_, int)] and prints differently;
    [VNone] is what a function returns when it falls off its end;
    [VOther ty] is an object of any other type, named [ty] (a float, a
    tuple, a set).  A [dict] keeps its items in insertion order. *)
Inductive value : Type :=
| VInt (n : Z)
| VBool (b : bool)
| VBytes (s : bytes)
| VStr (s : pystr)
| VList (l : list value)
| VDict (d : list (value * value))
| VNone
| VOther (ty : string).

(** The [data] argument of the decoder, annotated [Union[bytes, str]]. *)
Inductive buffer : Type :=
| BufBytes (data : bytes)
| BufStr (data : pystr).

(** [result[key] = v] for a [bytes] key: an item with an equal key keeps
    its place and gets the new value; otherwise the item is added at the
    end.  Only a [bytes] key is equal to a [bytes] key. *)
Fixpoint dict_setitem (d : list (value * value)) (key : bytes) (v : value)
  : list (value * value) :=
  match d with
  | [] => [(VBytes key, v)]
  | (k', v') :: d' =>
      match k' with
      | VBytes s => if bytes_eqb s key then (k', v) :: d'
                    else (k', v') :: dict_setitem d' key v
      | _ => (k', v') :: dict_setitem d' key v
      end
  end.

(** ** Decoder *)

(** [Decoder.decode_integer].  The [isinstance] guard of the source
    always passes on a [buffer].  The variable [end] of the source is [e]
    here and below. *)
Definition decode_integer (data : buffer) (pos : Z) : outcome (Z * Z) :=
  data <- match data with BufStr s => str_encode s | BufBytes d => Ok d end ;;
  c <- getitem data pos ;;
  if negb (ord c =? ord "i") then Raise DecodeIntegerError else
  let e := find data "e" pos in
  if e =? -1 then Raise DecodeIntegerError else
  match py_int (slice data (pos + 1) e) with
  | None => Raise DecodeIntegerError
  | Some integer => Ok (integer, e)
  end.

(** [Decoder.decode_string]. *)
Definition decode_string (data : buffer) (pos : Z) : outcome (bytes * Z) :=
  data <- match data with BufStr s => str_encode s | BufBytes d => Ok d end ;;
  let colon_index := find data ":" pos in
  if colon_index =? -1 then Raise DecodeStringError else
  match py_int (slice data pos colon_index) with
  | None => Raise DecodeStringError
  | Some length =>
      let e := colon_index + 1 + length in
      let string := slice data (colon_index + 1) e in
      if len string <? length then Raise DecodeStringError
      else Ok (string, e - 1)
  end.

(** [Decoder.decode_list] and [Decoder.decode_dictionary], with their
    [while] loops as [decode_list_loop] and [decode_dictionary_loop]: the
    arguments of a loop are the variables it updates.  Every call and
    every iteration takes one unit of fuel.  The source reads
    [data[current_pos]] anew in each test of a chain of [if]s; the reads
    give the same byte, so it is read once here.  On a [str] the source
    calls [data.decode()], which a [str] does not have. *)
Fixpoint decode_list (fuel : nat) (data : buffer) (pos : Z)
  : fueled (list value * Z) :=
  match fuel with
  | O => None
  | S fuel =>
      data <~ lift (match data with
                    | BufStr _ => Raise AttributeError
                    | BufBytes d => Ok d
                    end) ;;
      c <~ lift (getitem data pos) ;;
      if negb (ord c =? ord "l") then Some (Raise DecodeListError) else
      decode_list_loop fuel data (pos + 1) []
  end

with decode_list_loop (fuel : nat) (data : bytes) (current_pos : Z)
       (contents : list value) : fueled (list value * Z) :=
  match fuel with
  | O => None
  | S fuel =>
      if current_pos <? len data then
        c <~ lift (getitem data current_pos) ;;
        if ord c =? ord "i" then
          '(integer, e) <~ lift (decode_integer (BufBytes data) current_pos) ;;
          decode_list_loop fuel data (e + 1) (contents ++ [VInt integer])
        else if (ord "0" <=? ord c) && (ord c <=? ord "9") then
          '(string, e) <~ lift (decode_string (BufBytes data) current_pos) ;;
          decode_list_loop fuel data (e + 1) (contents ++ [VBytes string])
        else if ord c =? ord "l" then
          '(_list, e) <~ decode_list fuel (BufBytes data) current_pos ;;
          decode_list_loop fuel data (e + 1) (contents ++ [VList _list])
        else if ord c =? ord "d" then
          '(dictionary, e) <~ decode_dictionary fuel (BufBytes data) current_pos ;;
          decode_list_loop fuel data (e + 1) (contents ++ [VDict dictionary])
        else if ord c =? ord "e" then
          Some (Ok (contents, current_pos))
        else Some (Raise DecodeListError)
      else Some (Raise DecodeListError)
  end

with decode_dictionary (fuel : nat) (data : buffer) (pos : Z)
  : fueled (list (value * value) * Z) :=
  match fuel with
  | O => None
  | S fuel =>
      data <~ lift (match data with
                    | BufStr _ => Raise AttributeError
                    | BufBytes d => Ok d
                    end) ;;
      c <~ lift (getitem data pos) ;;
      if negb (ord c =? ord "d") then Some (Raise DecodeListError) else
      decode_dictionary_loop fuel data (pos + 1) []
  end

with decode_dictionary_loop (fuel : nat) (data : bytes) (current_pos : Z)
       (result : list (value * value)) : fueled (list (value * value) * Z) :=
  match fuel with
  | O => None
  | S fuel =>
      if current_pos <? len data then
        c <~ lift (getitem data current_pos) ;;
        if ord c =? ord "e" then Some (Ok (result, current_pos)) else
        '(key, e) <~ lift (decode_string (BufBytes data) current_pos) ;;
        let current_pos := e + 1 in
        c <~ lift (getitem data current_pos) ;;
        if ord c =? ord "i" then
          '(integer, e) <~ lift (decode_integer (BufBytes data) current_pos) ;;
          decode_dictionary_loop fuel data (e + 1)
            (dict_setitem result key (VInt integer))
        else if (ord "0" <=? ord c) && (ord c <=? ord "9") then
          '(string, e) <~ lift (decode_string (BufBytes data) current_pos) ;;
          decode_dictionary_loop fuel data (e + 1)
            (dict_setitem result key (VBytes string))
        else if ord c =? ord "l" then
          '(_list, e) <~ decode_list fuel (BufBytes data) current_pos ;;
          decode_dictionary_loop fuel data (e + 1)
            (dict_setitem result key (VList _list))
        else if ord c =? ord "d" then
          '(dictionary, e) <~ decode_dictionary fuel (BufBytes data) current_pos ;;
          decode_dictionary_loop fuel data (e + 1)
            (dict_setitem result key (VDict dictionary))
        else Some (Raise DecodeDictionaryError)
      else Some (Raise DecodeDictionaryError)
  end.

(** [Decoder.decode].  When no test matches, the source falls off the
    end of the function, which returns [None]. *)
Definition decode (fuel : nat) (data : buffer) (pos : Z) : fueled value :=
  data <~ lift (match data with BufStr s => str_encode s | BufBytes d => Ok d end) ;;
  c <~ lift (getitem data pos) ;;
  if ord c =? ord "i" then
    '(integer, _) <~ lift (decode_integer (BufBytes data) pos) ;;
    Some (Ok (VInt integer))
  else if (ord "0" <=? ord c) && (ord c <=? ord "9") then
    '(string, _) <~ lift (decode_string (BufBytes data) pos) ;;
    Some (Ok (VBytes string))
  else if ord c =? ord "l" then
    '(_list, _) <~ decode_list fuel (BufBytes data) pos ;;
    Some (Ok (VList _list))
  else if ord c =? ord "d" then
    '(dictionary, _) <~ decode_dictionary fuel (BufBytes data) pos ;;
    Some (Ok (VDict dictionary))
  else Some (Ok VNone).

(** ** Encoder *)

(** [isinstance(v, int)]: a [bool] is an [int]. *)
Definition is_int (v : value) : bool :=
  match v with VInt _ | VBool _ => true | _ => false end.

(** [isinstance(v, (str, bytes))]. *)
Definition is_string (v : value) : bool :=
  match v with VStr _ | VBytes _ => true | _ => false end.

Definition is_list (v : value) : bool :=
  match v with VList _ => true | _ => false end.

Definition is_dict (v : value) : bool :=
  match v with VDict _ => true | _ => false end.

(** [Encoder.encode_integer]: [f'i{data}e'.encode()].  Formatting an
    [int] is [str] of it, formatting a [bool] gives its name. *)
Definition encode_integer (data : value) : outcome bytes :=
  match data with
  | VInt n => integer <- py_str n ;; Ok (B "i" ++ integer ++ B "e")
  | VBool b => Ok (B "i" ++ (if b then B "True" else B "False") ++ B "e")
  | _ => Raise EncodeIntegerError
  end.

(** [Encoder.encode_string]. *)
Definition encode_string (data : value) : outcome bytes :=
  match data with
  | VStr s =>
      data <- str_encode s ;;
      length <- py_str (len data) ;;
      Ok (length ++ B ":" ++ data)
  | VBytes data =>
      length <- py_str (len data) ;;
      Ok (length ++ B ":" ++ data)
  | _ => Raise EncodeStringError
  end.

(** [Encoder.encode_list] and [Encoder.encode_dictionary]; the inner
    [fix] is the [for] loop, with [result] the bytes built so far.  A
    list item that passes none of the four tests is passed over. *)
Fixpoint encode_list (data : value) : outcome bytes :=
  match data with
  | VList l =>
      (fix loop (l : list value) (result : bytes) {struct l} : outcome bytes :=
         match l with
         | [] => Ok (result ++ B "e")
         | item :: l' =>
             if is_int item then
               integer <- encode_integer item ;; loop l' (result ++ integer)
             else if is_string item then
               string <- encode_string item ;; loop l' (result ++ string)
             else if is_list item then
               _list <- encode_list item ;; loop l' (result ++ _list)
             else if is_dict item then
               dictionary <- encode_dictionary item ;;
               loop l' (result ++ dictionary)
             else loop l' result
         end) l (B "l")
  | _ => Raise EncodeListError
  end

with encode_dictionary (data : value) : outcome bytes :=
  match data with
  | VDict d =>
      (fix loop (d : list (value * value)) (result : bytes) {struct d}
         : outcome bytes :=
         match d with
         | [] => Ok (result ++ B "e")
         | (key, v) :: d' =>
             if is_string key then
               string <- encode_string key ;;
               let result := result ++ string in
               if is_string v then
                 string <- encode_string v ;; loop d' (result ++ string)
               else if is_int v then
                 integer <- encode_integer v ;; loop d' (result ++ integer)
               else if is_list v then
                 _list <- encode_list v ;; loop d' (result ++ _list)
               else if is_dict v then
                 dictionary <- encode_dictionary v ;;
                 loop d' (result ++ dictionary)
               else Raise EncodeDictionaryError
             else Raise EncodeDictionaryError
         end) d (B "d")
  | _ => Raise EncodeListError
  end.

(** [Encoder.encode]. *)
Definition encode (data : value) : outcome bytes :=
  if is_string data then encode_string data
  else if is_int data then encode_integer data
  else if is_list data then encode_list data
  else if is_dict data then encode_dictionary data
  else Raise EncodeError.

(** The [for] loops of [encode_list] and [encode_dictionary], named. *)
Definition encode_list_loop : list value -> bytes -> outcome bytes :=
  fix loop (l : list value) (result : bytes) {struct l} : outcome bytes :=
    match l with
    | [] => Ok (result ++ B "e")
    | item :: l' =>
        if is_int item then
          integer <- encode_integer item ;; loop l' (result ++ integer)
        else if is_string item then
          string <- encode_string item ;; loop l' (result ++ string)
        else if is_list item then
          _list <- encode_list item ;; loop l' (result ++ _list)
        else if is_dict item then
          dictionary <- encode_dictionary item ;;
          loop l' (result ++ dictionary)
        else loop l' result
    end.

Definition encode_dictionary_loop
  : list (value * value) -> bytes -> outcome bytes :=
  fix loop (d : list (value * value)) (result : bytes) {struct d}
    : outcome bytes :=
    match d with
    | [] => Ok (result ++ B "e")
    | (key, v) :: d' =>
        if is_string key then
          string <- encode_string key ;;
          let result := result ++ string in
          if is_string v then
            string <- encode_string v ;; loop d' (result ++ string)
          else if is_int v then
            integer <- encode_integer v ;; loop d' (result ++ integer)
          else if is_list v then
            _list <- encode_list v ;; loop d' (result ++ _list)
          else if is_dict v then
            dictionary <- encode_dictionary v ;;
            loop d' (result ++ dictionary)
          else Raise EncodeDictionaryError
        else Raise EncodeDictionaryError
    end.

(** ** Notions the properties are stated with *)

(** The tags [decode] knows: [i], a digit, [l], [d]. *)
Definition is_tag (c : ascii) : bool :=
  (ord c =? ord "i") || ((ord "0" <=? ord c) && (ord c <=? ord "9"))
  || (ord c =? ord "l") || (ord c =? ord "d").

(** The kinds of object the encoder has a routine for. *)
Definition supported_kind (v : value) : bool :=
  is_int v || is_string v || is_list v || is_dict v.

(** The encodings of the items of a list, one after the other; the first
    item that cannot be encoded raises. *)
Fixpoint encode_items (l : list value) : outcome bytes :=
  match l with
  | [] => Ok []
  | item :: l' =>
      x <- encode item ;;
      r <- encode_items l' ;;
      Ok (x ++ r)
  end.

(** The encodings of the keys and values of a dictionary, one after the
    other. *)
Fixpoint encode_pairs (d : list (value * value)) : outcome bytes :=
  match d with
  | [] => Ok []
  | (key, v) :: d' =>
      if is_string key then
        k <- encode_string key ;;
        if supported_kind v then
          x <- encode v ;;
          r <- encode_pairs d' ;;
          Ok (k ++ x ++ r)
        else Raise EncodeDictionaryError
      else Raise EncodeDictionaryError
  end.

(** [key in d], for a [bytes] key. *)
Fixpoint dict_contains (d : list (value * value)) (key : bytes) : bool :=
  match d with
  | [] => false
  | (VBytes s, _) :: d' => bytes_eqb s key || dict_contains d' key
  | _ :: d' => dict_contains d' key
  end.

(** The items of a Python [dict] have pairwise different keys; here for
    keys that are [bytes]. *)
Fixpoint distinct_keys (d : list (value * value)) : bool :=
  match d with
  | [] => true
  | (VBytes s, _) :: d' => negb (dict_contains d' s) && distinct_keys d'
  | _ :: d' => false
  end.

(** The values of the four kinds of the format: an integer, a byte
    string, a list of such values, a dictionary from byte strings to such
    values.  A [bool] is left out, although it passes [is_int]: the
    encoder does not write it as digits. *)
Fixpoint bencodable (v : value) : bool :=
  match v with
  | VInt _ => true
  | VBytes _ => true
  | VList l => forallb bencodable l
  | VDict d =>
      forallb (fun kv => match fst kv with
                         | VBytes _ => bencodable (snd kv)
                         | _ => false
                         end) d
      && distinct_keys d
  | _ => false
  end.

(** The UTF-8 encoding of a [str] that has one. *)
Definition utf8 (s : pystr) : bytes :=
  match str_encode s with
  | Ok data => data
  | Raise _ => []
  end.

(** What the encoder makes of a value: text is written as the bytes of
    its UTF-8 encoding, and the items of a list that are of none of the
    four kinds are left out.  The inner [fix] goes through the items of a
    list. *)
Fixpoint to_format (v : value) : value :=
  match v with
  | VStr s => VBytes (utf8 s)
  | VList l =>
      VList ((fix items (l : list value) : list value :=
                match l with
                | [] => []
                | x :: l' =>
                    if supported_kind x then to_format x :: items l'
                    else items l'
                end) l)
  | VDict d =>
      VDict (map (fun kv => (to_format (fst kv), to_format (snd kv))) d)
  | _ => v
  end.

(** The loop of [to_format] over the items of a list, named. *)
Definition format_items : list value -> list value :=
  fix items (l : list value) : list value :=
    match l with
    | [] => []
    | x :: l' =>
        if supported_kind x then to_format x :: items l' else items l'
    end.

(** The largest [len] of a Python object ([sys.maxsize] of a 64-bit
    build). *)
Definition max_size : Z := 2 ^ 63 - 1.

(** The bytes the decoder works on: a [str] is encoded first. *)
Definition buffer_bytes (data : buffer) : outcome bytes :=
  match data with
  | BufStr s => str_encode s
  | BufBytes d => Ok d
  end.

(** A bound on the fuel the decoder needs for the encoding of [v]. *)
Fixpoint size (v : value) : nat :=
  match v with
  | VList l => 2 + fold_right (fun x n => size x + n)%nat 0%nat l
  | VDict d => 2 + fold_right (fun kv n => 1 + size (snd kv) + n)%nat 0%nat d
  | _ => 1
  end.

(** The test on the leading byte that [decode], the loop of
    [decode_list] and, for values, the loop of [decode_dictionary] all
    make, with the call that follows it; the three differ only in what
    they do when no test passes, which is left out here ([None]). *)
Definition dispatch (fuel : nat) (data : bytes) (pos : Z)
  : option (fueled (value * Z)) :=
  match getitem data pos with
  | Ok c =>
      if ord c =? ord "i" then
        Some ('(integer, e) <~ lift (decode_integer (BufBytes data) pos) ;;
              Some (Ok (VInt integer, e)))
      else if (ord "0" <=? ord c) && (ord c <=? ord "9") then
        Some ('(string, e) <~ lift (decode_string (BufBytes data) pos) ;;
              Some (Ok (VBytes string, e)))
      else if ord c =? ord "l" then
        Some ('(_list, e) <~ decode_list fuel (BufBytes data) pos ;;
              Some (Ok (VList _list, e)))
      else if ord c =? ord "d" then
        Some ('(dictionary, e) <~ decode_dictionary fuel (BufBytes data) pos ;;
              Some (Ok (VDict dictionary, e)))
      else None
  | Raise _ => None
  end.

(** The buffer of the example of a decoder that does not return. *)
Definition looping_dictionary : bytes := B "d1:ai1e-6:".

(** ** Notions the proofs are carried out with *)

(** The bytes of [str(n)] are digits, after a minus sign when [n] is
    negative. *)
Definition is_numeric (c : ascii) : bool := is_digit c || Ascii.eqb c "-".

(** The value of the digits of [u] after the digits that gave [acc]. *)
Fixpoint uint_value (u : uint) (acc : Z) : Z :=
  match u with
  | Nil => acc
  | D0 u' => uint_value u' (10 * acc + 0)
  | D1 u' => uint_value u' (10 * acc + 1)
  | D2 u' => uint_value u' (10 * acc + 2)
  | D3 u' => uint_value u' (10 * acc + 3)
  | D4 u' => uint_value u' (10 * acc + 4)
  | D5 u' => uint_value u' (10 * acc + 5)
  | D6 u' => uint_value u' (10 * acc + 6)
  | D7 u' => uint_value u' (10 * acc + 7)
  | D8 u' => uint_value u' (10 * acc + 8)
  | D9 u' => uint_value u' (10 * acc + 9)
  end.

(** The sizes of the items of a list, and of the values of a
    dictionary with one more for each key, summed: what [size] adds up. *)
Definition items_size (l : list value) : nat :=
  fold_right (fun x n => size x + n)%nat 0%nat l.

Definition pairs_size (d : list (value * value)) : nat :=
  fold_right (fun kv n => 1 + size (snd kv) + n)%nat 0%nat d.

(** An item of a dictionary of the format: a [bytes] key and a value
    of the format. *)
Definition bencodable_pair (kv : value * value) : bool :=
  match fst kv with
  | VBytes _ => bencodable (snd kv)
  | _ => false
  end.

(** With [fuel], the encoding [e] of a value, wherever it stands in a
    buffer, is read back as the value, and the end position is that of
    the last byte of [e]. *)
Definition value_at (fuel : nat) : Prop :=
  forall v e data pre suf,
    bencodable v = true -> encode v = Ok e -> (size v <= fuel)%nat ->
    data = pre ++ e ++ suf ->
    dispatch fuel data (len pre) = Some (Some (Ok (v, len pre + len e - 1))).

(** With [fuel], the loop of [decode_list], started on the encodings
    [body] of the items [l] and the [e] after them, adds [l] to the
    contents and stops on that [e]. *)
Definition items_at (fuel : nat) : Prop :=
  forall l body data pre suf contents,
    forallb bencodable l = true -> encode_items l = Ok body ->
    (1 + items_size l <= fuel)%nat ->
    data = pre ++ body ++ B "e" ++ suf ->
    decode_list_loop fuel data (len pre) contents =
    Some (Ok (contents ++ l, len pre + len body)).

(** The same for the loop of [decode_dictionary], when the keys to
    come are pairwise different and none of them is in [result] yet. *)
Definition pairs_at (fuel : nat) : Prop :=
  forall d body data pre suf result,
    forallb bencodable_pair d = true -> distinct_keys d = true ->
    (forall s, dict_contains d s = true -> dict_contains result s = false) ->
    encode_pairs d = Ok body ->
    (1 + pairs_size d <= fuel)%nat ->
    data = pre ++ body ++ B "e" ++ suf ->
    decode_dictionary_loop fuel data (len pre) result =
    Some (Ok (result ++ d, len pre + len body)).

(** A successful call of a container routine ends on an [e]. *)
Definition ends_on_e {A} (data : bytes) (r : fueled (A * Z)) : Prop :=
  forall a e, r = Some (Ok (a, e)) -> getitem data e = Ok "e"%char.

(** What a call gives when it returns: [returns P r] says that the
    result of [r], if there is one, satisfies [P]. *)
Definition returns {A} (P : A -> Prop) (r : fueled (A * Z)) : Prop :=
  forall a e, r = Some (Ok (a, e)) -> P a.

(** A dictionary as the decoder builds them: [bytes] keys, pairwise
    different, and values of the format. *)
Definition decoded_dict (d : list (value * value)) : Prop :=
  forallb bencodable_pair d = true /\ distinct_keys d = true.

(** A list as the decoder builds them. *)
Definition decoded_list (l : list value) : Prop :=
  forallb bencodable l = true.


(** The integers in [v], and the lengths of the byte strings in it, are
    within the limit of [str]. *)
Fixpoint within_limits (v : value) : bool :=
  match v with
  | VInt n => len (str_int (Z.abs n)) <=? max_str_digits
  | VBytes s => len (str_int (Z.abs (len s))) <=? max_str_digits
  | VList l => forallb within_limits l
  | VDict d =>
      forallb (fun kv => within_limits (fst kv) && within_limits (snd kv)) d
  | _ => true
  end.

(** A list, and a dictionary, whose integers and lengths can be
    printed. *)
Definition printable_list (l : list value) : Prop :=
  forallb within_limits l = true.

Definition printable_dict (d : list (value * value)) : Prop :=
  forallb (fun kv => within_limits (fst kv) && within_limits (snd kv)) d
  = true.

(** The dictionary that the assignments [result[key] = v], made for the
    items of [d] in order, build from [result]. *)
Definition assign_all (d result : list (value * value))
  : list (value * value) :=
  fold_left (fun r kv => match fst kv with
                         | VBytes key => dict_setitem r key (snd kv)
                         | _ => r
                         end) d result.

(** A buffer without a minus sign. *)
Definition minus_free (data : bytes) : Prop :=
  Forall (fun c => c <> "-"%char) data.

(** An end position, when there is one, is at least [lo]. *)
Definition ends_from {A} (lo : Z) (r : fueled (A * Z)) : Prop :=
  forall a e, r = Some (Ok (a, e)) -> lo <= e.

(** The call returns or raises: it does not run out of fuel. *)
Definition halts {A} (r : fueled A) : Prop := r <> None.

(** Fuel that is enough for a loop at [p], and for a call at [pos], on a
    buffer without a minus sign: two units for each byte from there to
    the end of the buffer. *)
Definition loop_fuel (data : bytes) (p : Z) : nat :=
  2 * Z.to_nat (len data - p) + 1.

Definition call_fuel (data : bytes) (pos : Z) : nat :=
  Nat.max 1 (2 * Z.to_nat (len data - pos)).

(** * Properties *)

(** ** Unfolding equations of the fuelled routines *)

Lemma decode_list_S fuel data pos :
  decode_list (S fuel) (BufBytes data) pos =
  (c <~ lift (getitem data pos) ;;
   if negb (ord c =? ord "l") then Some (Raise DecodeListError)
   else decode_list_loop fuel data (pos + 1) []).
Proof. reflexivity. Qed.

Lemma decode_dictionary_S fuel data pos :
  decode_dictionary (S fuel) (BufBytes data) pos =
  (c <~ lift (getitem data pos) ;;
   if negb (ord c =? ord "d") then Some (Raise DecodeListError)
   else decode_dictionary_loop fuel data (pos + 1) []).
Proof. reflexivity. Qed.

Lemma decode_list_loop_S fuel data current_pos contents :
  decode_list_loop (S fuel) data current_pos contents =
  if current_pos <? len data then
    c <~ lift (getitem data current_pos) ;;
    if ord c =? ord "i" then
      '(integer, e) <~ lift (decode_integer (BufBytes data) current_pos) ;;
      decode_list_loop fuel data (e + 1) (contents ++ [VInt integer])
    else if (ord "0" <=? ord c) && (ord c <=? ord "9") then
      '(string, e) <~ lift (decode_string (BufBytes data) current_pos) ;;
      decode_list_loop fuel data (e + 1) (contents ++ [VBytes string])
    else if ord c =? ord "l" then
      '(_list, e) <~ decode_list fuel (BufBytes data) current_pos ;;
      decode_list_loop fuel data (e + 1) (contents ++ [VList _list])
    else if ord c =? ord "d" then
      '(dictionary, e) <~ decode_dictionary fuel (BufBytes data) current_pos ;;
      decode_list_loop fuel data (e + 1) (contents ++ [VDict dictionary])
    else if ord c =? ord "e" then Some (Ok (contents, current_pos))
    else Some (Raise DecodeListError)
  else Some (Raise DecodeListError).
Proof. reflexivity. Qed.

Lemma decode_dictionary_loop_S fuel data current_pos result :
  decode_dictionary_loop (S fuel) data current_pos result =
  if current_pos <? len data then
    c <~ lift (getitem data current_pos) ;;
    if ord c =? ord "e" then Some (Ok (result, current_pos)) else
    '(key, e) <~ lift (decode_string (BufBytes data) current_pos) ;;
    c <~ lift (getitem data (e + 1)) ;;
    if ord c =? ord "i" then
      '(integer, e') <~ lift (decode_integer (BufBytes data) (e + 1)) ;;
      decode_dictionary_loop fuel data (e' + 1)
        (dict_setitem result key (VInt integer))
    else if (ord "0" <=? ord c) && (ord c <=? ord "9") then
      '(string, e') <~ lift (decode_string (BufBytes data) (e + 1)) ;;
      decode_dictionary_loop fuel data (e' + 1)
        (dict_setitem result key (VBytes string))
    else if ord c =? ord "l" then
      '(_list, e') <~ decode_list fuel (BufBytes data) (e + 1) ;;
      decode_dictionary_loop fuel data (e' + 1)
        (dict_setitem result key (VList _list))
    else if ord c =? ord "d" then
      '(dictionary, e') <~ decode_dictionary fuel (BufBytes data) (e + 1) ;;
      decode_dictionary_loop fuel data (e' + 1)
        (dict_setitem result key (VDict dictionary))
    else Some (Raise DecodeDictionaryError)
  else Some (Raise DecodeDictionaryError).
Proof. reflexivity. Qed.

Lemma ord_inj a c : ord a = ord c -> a = c.
Proof.
  unfold ord. intros H. apply N2Z.inj in H.
  rewrite <- (ascii_N_embedding a), <- (ascii_N_embedding c). now rewrite H.
Qed.

Lemma ord_eqb_eq a c : (ord a =? ord c) = true <-> a = c.
Proof.
  rewrite Z.eqb_eq. split; [apply ord_inj | now intros ->].
Qed.

(** ** Leading bytes outside the grammar *)

(** C2, as the code has it: when the byte at the start position is
    none of [i], a digit, [l] or [d], [decode] raises nothing and returns
    [None], whatever the fuel.  The claim asks for a decode error there. *)
Theorem decode_unknown_tag_returns_None fuel data pos c :
  getitem data pos = Ok c ->
  is_tag c = false ->
  decode fuel (BufBytes data) pos = Some (Ok VNone).
Proof.
  intros Hc Ht. unfold decode, fbind, lift. rewrite Hc.
  unfold is_tag in Ht.
  apply orb_false_elim in Ht as [Ht Hd].
  apply orb_false_elim in Ht as [Ht Hl].
  apply orb_false_elim in Ht as [Hi Hg].
  now rewrite Hi, Hg, Hl, Hd.
Qed.

Lemma decode_unknown_tag_returns_None_witness :
  decode 5 (BufBytes (B "x")) 0 = Some (Ok VNone).
Proof.
  apply (decode_unknown_tag_returns_None 5 (B "x") 0 "x"); reflexivity.
Defined.

(** ** Unterminated containers *)

(** C3, as the code has it: an unterminated list raises
    [DecodeListError]; the unterminated dictionary [d3:key] raises
    [IndexError], from the read of [data[current_pos]] after the key, and
    not [DecodeDictionaryError]. *)
Theorem decode_unterminated_containers fuel :
  decode (3 + fuel) (BufBytes (B "l4:spam")) 0 = Some (Raise DecodeListError)
  /\ decode (2 + fuel) (BufBytes (B "d3:key")) 0 = Some (Raise IndexError)
  /\ decode fuel (BufBytes (B "d3:key")) 0 <> Some (Raise DecodeDictionaryError).
Proof.
  split; [reflexivity|]. split; [reflexivity|].
  destruct fuel as [|[|fuel]]; discriminate.
Qed.

(** ** Integer edge cases *)

(** C4, the claim as stated fails: [i04e] is decoded, to 4. *)
Lemma decode_leading_zero_accepted :
  decode 1 (BufBytes (B "i04e")) 0 = Some (Ok (VInt 4))
  /\ decode 1 (BufBytes (B "i04e")) 0 <> Some (Raise DecodeIntegerError).
Proof. split; [reflexivity | discriminate]. Qed.

(** C4, amended: [i0e] is 0, [i-42e] is -42, [ie] raises
    [DecodeIntegerError]; [i04e] and [i-0e] are accepted, as 4 and 0. *)
Theorem decode_integer_edge_cases fuel :
  decode fuel (BufBytes (B "i0e")) 0 = Some (Ok (VInt 0))
  /\ decode fuel (BufBytes (B "i-42e")) 0 = Some (Ok (VInt (-42)))
  /\ decode fuel (BufBytes (B "ie")) 0 = Some (Raise DecodeIntegerError)
  /\ decode fuel (BufBytes (B "i04e")) 0 = Some (Ok (VInt 4))
  /\ decode fuel (BufBytes (B "i-0e")) 0 = Some (Ok (VInt 0)).
Proof. repeat split. Qed.

(** ** The start of a dictionary *)

(** C5, as the code has it: when the byte at [pos] is not [d],
    [decode_dictionary] raises [DecodeListError], where the claim and
    the routine's own documentation have [DecodeDictionaryError]. *)
Theorem decode_dictionary_bad_start fuel data pos c :
  getitem data pos = Ok c ->
  c <> "d"%char ->
  decode_dictionary (S fuel) (BufBytes data) pos = Some (Raise DecodeListError).
Proof.
  intros Hc Hd. rewrite decode_dictionary_S. unfold fbind, lift. rewrite Hc.
  destruct (ord c =? ord "d") eqn:E; [|reflexivity].
  apply ord_eqb_eq in E. contradiction.
Qed.

Lemma decode_dictionary_bad_start_witness :
  decode_dictionary 1 (BufBytes (B "x")) 0 = Some (Raise DecodeListError).
Proof.
  apply (decode_dictionary_bad_start 0 (B "x") 0 "x");
    [reflexivity | discriminate].
Defined.

(** ** Integers that are booleans *)

(** C9, as the code has it: [True] passes the integer check and is
    encoded as [iTruee], which has no decimal digits. *)
Theorem encode_integer_bool :
  is_int (VBool true) = true
  /\ encode_integer (VBool true) = Ok (B "iTruee")
  /\ encode_integer (VBool false) = Ok (B "iFalsee")
  /\ forallb is_digit (B "True") = false.
Proof. repeat split. Qed.

(** ** A dictionary on which the decoder does not return *)

(** A key whose declared length is negative can send the cursor of
    [decode_dictionary] backwards.  When the key at [k] ends at [v - 1],
    and an integer read at [v] ends at [k - 1], an iteration that starts
    at [k] leads to [k] again. *)
Section Cycle.
Variables (data key : bytes) (k v n : Z) (c : ascii).
Hypothesis k_inside : (k <? len data) = true.
Hypothesis at_k : getitem data k = Ok c.
Hypothesis not_end : (ord c =? ord "e") = false.
Hypothesis key_k : decode_string (BufBytes data) k = Ok (key, v - 1).
Hypothesis at_v : getitem data v = Ok "i"%char.
Hypothesis int_v : decode_integer (BufBytes data) v = Ok (n, k - 1).

Lemma cycle_step fuel result :
  decode_dictionary_loop (S fuel) data k result =
  decode_dictionary_loop fuel data k (dict_setitem result key (VInt n)).
Proof.
  rewrite decode_dictionary_loop_S, k_inside, at_k.
  unfold fbind at 1. unfold lift at 1. cbv iota beta.
  rewrite not_end, key_k.
  unfold fbind at 1. unfold lift at 1. cbv iota beta zeta.
  replace (v - 1 + 1) with v by lia. rewrite at_v.
  unfold fbind at 1. unfold lift at 1. cbv iota beta.
  change (ord "i" =? ord "i") with true. cbv iota.
  rewrite int_v. unfold fbind, lift. cbv iota beta zeta.
  now replace (k - 1 + 1) with k by lia.
Qed.

Lemma cycle_forever fuel :
  forall result, decode_dictionary_loop fuel data k result = None.
Proof.
  induction fuel as [|fuel IH]; intros result; [reflexivity|].
  rewrite cycle_step. apply IH.
Qed.
End Cycle.

(** In [d1:ai1e-6:] the second key, at 7, has the declared length -6:
    [decode_string] accepts it and returns the end position 3.  The loop
    then reads the value [i1e] at 4 once more and comes back to 7. *)
Lemma looping_decode_dictionary fuel :
  decode_dictionary fuel (BufBytes looping_dictionary) 0 = None.
Proof.
  destruct fuel as [|fuel]; [reflexivity|].
  rewrite decode_dictionary_S.
  change (decode_dictionary_loop fuel looping_dictionary 1 [] = None).
  destruct fuel as [|fuel]; [reflexivity|].
  rewrite decode_dictionary_loop_S.
  change (decode_dictionary_loop fuel looping_dictionary 7
            (dict_setitem [] (B "a") (VInt 1)) = None).
  now apply (cycle_forever looping_dictionary [] 7 4 1 "-").
Qed.

Lemma looping_decode_dictionary_in_list fuel :
  decode_dictionary fuel (BufBytes (B "l" ++ looping_dictionary)) 1 = None.
Proof.
  destruct fuel as [|fuel]; [reflexivity|].
  rewrite decode_dictionary_S.
  change (decode_dictionary_loop fuel (B "l" ++ looping_dictionary) 2 [] = None).
  destruct fuel as [|fuel]; [reflexivity|].
  rewrite decode_dictionary_loop_S.
  change (decode_dictionary_loop fuel (B "l" ++ looping_dictionary) 8
            (dict_setitem [] (B "a") (VInt 1)) = None).
  now apply (cycle_forever (B "l" ++ looping_dictionary) [] 8 5 1 "-").
Qed.

(** C10, as the code has it: on [d1:ai1e-6:] neither
    [decode_dictionary] nor [decode] returns or raises, whatever the fuel;
    and a list that holds this dictionary stops [decode_list] the same
    way. *)
Theorem decode_dictionary_diverges fuel :
  decode_dictionary fuel (BufBytes looping_dictionary) 0 = None
  /\ decode fuel (BufBytes looping_dictionary) 0 = None
  /\ decode_list fuel (BufBytes (B "l" ++ looping_dictionary)) 0 = None.
Proof.
  split; [apply looping_decode_dictionary|]. split.
  - unfold decode.
    change (('(dictionary, _) <~
               decode_dictionary fuel (BufBytes looping_dictionary) 0 ;;
             Some (Ok (VDict dictionary))) = None).
    now rewrite looping_decode_dictionary.
  - destruct fuel as [|fuel]; [reflexivity|].
    rewrite decode_list_S.
    change (decode_list_loop fuel (B "l" ++ looping_dictionary) 1 [] = None).
    destruct fuel as [|fuel]; [reflexivity|].
    rewrite decode_list_loop_S.
    change (('(dictionary, e) <~
               decode_dictionary fuel (BufBytes (B "l" ++ looping_dictionary)) 1 ;;
             decode_list_loop fuel (B "l" ++ looping_dictionary) (e + 1)
               ([] ++ [VDict dictionary])) = None).
    now rewrite looping_decode_dictionary_in_list.
Qed.

(** ** The encoder's loops *)

Lemma encode_list_VList l :
  encode_list (VList l) = encode_list_loop l (B "l").
Proof. reflexivity. Qed.

Lemma encode_dictionary_VDict d :
  encode_dictionary (VDict d) = encode_dictionary_loop d (B "d").
Proof. reflexivity. Qed.

Lemma bind_assoc_app (r : outcome bytes) (acc x : bytes) :
  (body <- (y <- r ;; Ok (x ++ y)) ;; Ok (acc ++ body ++ B "e")) =
  (body <- r ;; Ok ((acc ++ x) ++ body ++ B "e")).
Proof. destruct r; simpl; [now rewrite <- !app_assoc | reflexivity]. Qed.

Lemma encode_list_loop_items l :
  forall acc,
    encode_list_loop l acc =
    (body <- encode_items (filter supported_kind l) ;;
     Ok (acc ++ body ++ B "e")).
Proof.
  induction l as [|item l IH]; intros acc; [reflexivity|].
  destruct item; cbn [encode_list_loop filter supported_kind is_int is_string
                      is_list is_dict orb encode_items];
    fold encode_list_loop; unfold encode;
    cbn [is_int is_string is_list is_dict];
    try apply IH;
    match goal with
    | |- context [bind ?r _] =>
        destruct r as [x|e] eqn:E; cbn [bind]; [|reflexivity]
    end;
    rewrite IH; now rewrite bind_assoc_app.
Qed.

Lemma encode_list_items l :
  encode_list (VList l) =
  (body <- encode_items (filter supported_kind l) ;;
   Ok (B "l" ++ body ++ B "e")).
Proof. rewrite encode_list_VList. apply encode_list_loop_items. Qed.

(** C7: [encode_list] passes over the items that are of none of the
    kinds integer, string or bytes, list, dictionary, without raising for
    them: its output is [l], then the encodings of the items of those
    four kinds, in order, then [e] (and it raises only if the encoding of
    one of these raises). *)
Theorem encode_list_skips_unsupported l :
  encode_list (VList l) =
  (body <- encode_items (filter supported_kind l) ;;
   Ok (B "l" ++ body ++ B "e")).
Proof. rewrite encode_list_VList. apply encode_list_loop_items. Qed.

(** ** The Python primitives on a buffer cut in three *)

Lemma len_app {A} (a c : list A) : len (a ++ c) = len a + len c.
Proof. unfold len. rewrite length_app. lia. Qed.

Lemma len_nonneg {A} (a : list A) : 0 <= len a.
Proof. unfold len. lia. Qed.

Lemma len_cons {A} (x : A) (a : list A) : len (x :: a) = 1 + len a.
Proof. unfold len. cbn [List.length]. lia. Qed.

Lemma getitem_app pre c rest :
  getitem (pre ++ c :: rest) (len pre) = Ok c.
Proof.
  unfold getitem. rewrite len_app, len_cons.
  pose proof (len_nonneg pre). pose proof (len_nonneg rest).
  destruct (len pre <? 0) eqn:E1; [lia|].
  rewrite E1. cbn [orb].
  destruct (len pre + (1 + len rest) <=? len pre) eqn:E2; [lia|].
  unfold len. rewrite Nat2Z.id, nth_error_app2, Nat.sub_diag by lia.
  reflexivity.
Qed.

Lemma find_from_app c s rest :
  Forall (fun x => Ascii.eqb x c = false) s ->
  forall i, find_from c (s ++ c :: rest) i = i + len s.
Proof.
  induction 1 as [|x s Hx _ IH]; intros i; cbn [List.app find_from].
  - rewrite Ascii.eqb_refl. unfold len. cbn. lia.
  - rewrite Hx, IH, len_cons. lia.
Qed.

Lemma find_app c pre s rest :
  Forall (fun x => Ascii.eqb x c = false) s ->
  find (pre ++ s ++ c :: rest) c (len pre) = len pre + len s.
Proof.
  intros Hs. unfold find. rewrite len_app.
  pose proof (len_nonneg pre). pose proof (len_nonneg (s ++ c :: rest)).
  destruct (len pre <? 0) eqn:E1; [lia|].
  destruct (len pre + len (s ++ c :: rest) <? len pre) eqn:E2; [lia|].
  unfold len at 1. rewrite Nat2Z.id, skipn_app, skipn_all, Nat.sub_diag.
  cbn [skipn List.app]. now apply find_from_app.
Qed.

Lemma adjust_bound_inside n i : 0 <= i <= n -> adjust_bound n i = i.
Proof.
  intros H. unfold adjust_bound.
  destruct (i <? 0) eqn:E1; [lia|]. rewrite E1.
  destruct (n <? i) eqn:E2; [lia|]. reflexivity.
Qed.

Lemma slice_app pre s rest :
  slice (pre ++ s ++ rest) (len pre) (len pre + len s) = s.
Proof.
  unfold slice. rewrite !len_app.
  pose proof (len_nonneg pre). pose proof (len_nonneg s).
  pose proof (len_nonneg rest).
  rewrite !adjust_bound_inside by lia.
  replace (len pre + len s - len pre) with (len s) by lia.
  unfold len. rewrite !Nat2Z.id, skipn_app, skipn_all, Nat.sub_diag.
  cbn [skipn List.app]. rewrite firstn_app, firstn_all, Nat.sub_diag.
  cbn [firstn]. apply List.app_nil_r.
Qed.

(** ** Printing an integer and reading it back *)

Lemma scan_uint_bytes u :
  forall acc nd,
    scan_digits (uint_bytes u) acc nd false =
    Some (uint_value u acc, (nd + nb_digits u)%nat, []).
Proof.
  induction u; intros acc nd; cbn [uint_bytes nb_digits uint_value];
    [ cbn; now rewrite Nat.add_0_r | .. ];
    match goal with
    | |- scan_digits (?c :: _) _ _ _ = _ =>
        let c' := eval vm_compute in c in change c with c'
    end;
    cbn [scan_digits];
    match goal with
    | |- context [is_digit ?c] => change (is_digit c) with true
    end;
    cbv iota; rewrite IHu, Nat.add_succ_r; reflexivity.
Qed.

Lemma of_uint_acc_value u :
  forall p, Z.pos (Pos.of_uint_acc u p) = uint_value u (Z.pos p).
Proof.
  induction u; intros p; cbn [Pos.of_uint_acc uint_value];
    try reflexivity; rewrite IHu; f_equal; lia.
Qed.

Lemma of_uint_value u : Z.of_uint u = uint_value u 0.
Proof.
  unfold Z.of_uint.
  induction u; cbn [Pos.of_uint uint_value]; try reflexivity;
    try (exact IHu);
    cbn [Z.of_N]; rewrite of_uint_acc_value; reflexivity.
Qed.

Lemma uint_bytes_digits u : Forall (fun c => is_digit c = true) (uint_bytes u).
Proof. induction u; cbn [uint_bytes]; constructor; auto. Qed.

Lemma digit_not_space c : is_digit c = true -> is_space c = false.
Proof.
  unfold is_digit, is_space. intros Hc.
  apply andb_true_iff in Hc as [H1 H2].
  change (ord "0") with 48 in H1. change (ord "9") with 57 in H2.
  apply Z.leb_le in H1. apply Z.leb_le in H2.
  destruct (9 <=? ord c) eqn:E1, (ord c <=? 13) eqn:E2,
           (ord c =? 32) eqn:E3; try reflexivity; lia.
Qed.

Lemma digit_neq c x : is_digit c = true -> is_digit x = false ->
  Ascii.eqb c x = false.
Proof.
  intros Hc Hx. destruct (Ascii.eqb c x) eqn:E; [|reflexivity].
  apply Ascii.eqb_eq in E. congruence.
Qed.

Lemma py_int_digits c s v m :
  Forall (fun c => is_digit c = true) (c :: s) ->
  scan_digits (c :: s) 0 0 false = Some (v, S m, []) ->
  py_int (c :: s)
  = (if max_str_digits <? Z.of_nat (S m) then None else Some v)
  /\ py_int ("-"%char :: c :: s)
     = (if max_str_digits <? Z.of_nat (S m) then None else Some (- v)).
Proof.
  intros Hd Hscan.
  inversion Hd as [|? ? Hc Hs']; subst.
  pose proof (digit_not_space c Hc) as Hsp.
  split.
  - unfold py_int. cbn [skip_space]. rewrite Hsp.
    rewrite !(digit_neq c) by (assumption || reflexivity).
    rewrite Hscan. reflexivity.
  - unfold py_int. cbn [skip_space].
    change (is_space "-") with false. cbv iota.
    change (Ascii.eqb "-" "+") with false.
    change (Ascii.eqb "-" "-") with true. cbv iota.
    rewrite !(digit_neq c) by (assumption || reflexivity).
    rewrite Hscan. reflexivity.
Qed.

Lemma length_uint_bytes u : List.length (uint_bytes u) = nb_digits u.
Proof. induction u; cbn [uint_bytes nb_digits List.length]; congruence. Qed.

Lemma len_uint_bytes u : len (uint_bytes u) = Z.of_nat (nb_digits u).
Proof. unfold len. now rewrite length_uint_bytes. Qed.

Lemma py_int_uint u :
  u <> Nil ->
  py_int (uint_bytes u)
  = (if max_str_digits <? len (uint_bytes u) then None
     else Some (Z.of_uint u))
  /\ py_int ("-"%char :: uint_bytes u)
     = (if max_str_digits <? len (uint_bytes u) then None
        else Some (- Z.of_uint u)).
Proof.
  intros Hu. rewrite len_uint_bytes.
  pose proof (uint_bytes_digits u) as Hd.
  pose proof (scan_uint_bytes u 0 0) as Hs.
  rewrite <- of_uint_value in Hs.
  destruct (nb_digits u) as [|m] eqn:Hn.
  { destruct u; try discriminate Hn. contradiction. }
  destruct (uint_bytes u) as [|c s] eqn:Hb.
  { destruct u; try discriminate Hb. contradiction. }
  cbn [Nat.add] in Hs. now apply (py_int_digits c s _ m).
Qed.

(** [int(str(n))] is [n], unless the digits are too many. *)
Lemma py_int_text n :
  py_int (str_int n)
  = (if max_str_digits <? len (str_int (Z.abs n)) then None else Some n).
Proof.
  unfold str_int.
  destruct n as [|p|p]; cbn [Z.abs Z.to_int].
  - reflexivity.
  - rewrite (proj1 (py_int_uint _ (DecimalPos.Unsigned.to_uint_nonnil p))).
    unfold Z.of_uint. now rewrite DecimalPos.Unsigned.of_to.
  - rewrite (proj2 (py_int_uint _ (DecimalPos.Unsigned.to_uint_nonnil p))).
    unfold Z.of_uint. now rewrite DecimalPos.Unsigned.of_to.
Qed.

Lemma py_int_str_int n :
  len (str_int (Z.abs n)) <= max_str_digits -> py_int (str_int n) = Some n.
Proof. intros H. apply Z.ltb_ge in H. now rewrite py_int_text, H. Qed.

(** What [str] gives when it returns. *)
Lemma py_str_Ok n t :
  py_str n = Ok t ->
  t = str_int n /\ len (str_int (Z.abs n)) <= max_str_digits.
Proof.
  unfold py_str.
  destruct (max_str_digits <? len (str_int (Z.abs n))) eqn:E; [discriminate|].
  intros H. apply Z.ltb_ge in E. split; [congruence|exact E].
Qed.

Lemma py_str_within n :
  len (str_int (Z.abs n)) <= max_str_digits -> py_str n = Ok (str_int n).
Proof. intros H. unfold py_str. apply Z.ltb_ge in H. now rewrite H. Qed.


Lemma uint_bytes_head_zero u r :
  uint_bytes u = "0"%char :: r -> exists u', u = D0 u'.
Proof.
  destruct u; cbn [uint_bytes]; intros H; try discriminate H;
    [eauto|..]; injection H as H _; vm_compute in H; discriminate H.
Qed.

Lemma to_uint_no_leading_zero p u : Pos.to_uint p <> D0 u.
Proof.
  intros H.
  pose proof (DecimalPos.Unsigned.to_of (Pos.to_uint p)) as Hn.
  rewrite DecimalPos.Unsigned.of_to in Hn. cbn [N.to_uint] in Hn.
  rewrite H, DecimalFacts.unorm_D0 in Hn.
  destruct u as [|u|u|u|u|u|u|u|u|u|u];
    [ apply (DecimalPos.Unsigned.to_uint_nonzero p); exact H | .. ];
    match type of Hn with
    | _ = unorm ?d =>
        assert (Hd : d <> Nil) by discriminate;
        pose proof (DecimalFacts.nb_digits_unorm d Hd) as Hle;
        rewrite <- Hn in Hle; cbn [nb_digits] in Hle; lia
    end.
Qed.

(** *** The number of digits and the magnitude *)

Lemma pow10_S n : 10 ^ Z.of_nat (S n) = 10 * 10 ^ Z.of_nat n.
Proof. rewrite Nat2Z.inj_succ, Z.pow_succ_r by lia. reflexivity. Qed.

Lemma pow10_pos n : 0 < 10 ^ Z.of_nat n.
Proof. apply Z.pow_pos_nonneg; lia. Qed.

Lemma uint_value_lower u :
  forall acc, 0 <= acc ->
              acc * 10 ^ Z.of_nat (nb_digits u) <= uint_value u acc.
Proof.
  induction u; intros acc Ha; cbn [nb_digits uint_value];
    [ change (10 ^ Z.of_nat 0) with 1; lia | .. ];
    rewrite pow10_S;
    (etransitivity; [|apply IHu; lia]);
    pose proof (pow10_pos (nb_digits u)); nia.
Qed.

(** A natural number below [10 ^ k] has at most [k] digits. *)
Lemma digits_within n k :
  0 <= n < 10 ^ k -> 0 < k -> len (str_int n) <= k.
Proof.
  intros [Hn Hk] Hpos.
  destruct n as [|p|p]; [change (len (str_int 0)) with 1; lia| |lia].
  unfold str_int. cbn [Z.to_int]. rewrite len_uint_bytes.
  pose proof (to_uint_no_leading_zero p) as Hz.
  pose proof (DecimalPos.Unsigned.to_uint_nonnil p) as Hnil.
  assert (Hv : Z.pos p = uint_value (Pos.to_uint p) 0).
  { rewrite <- of_uint_value. unfold Z.of_uint.
    now rewrite DecimalPos.Unsigned.of_to. }
  destruct (Pos.to_uint p) as [|u|u|u|u|u|u|u|u|u|u];
    [ contradiction | exfalso; now apply (Hz u) | .. ];
    cbn [uint_value nb_digits] in Hv |- *;
    match type of Hv with
    | _ = uint_value ?u ?a =>
        pose proof (uint_value_lower u a ltac:(lia)) as Hlow
    end;
    (destruct (Z.le_gt_cases k (Z.of_nat (nb_digits u))) as [Hle|Hgt];
     [exfalso|lia]);
    apply (Z.pow_le_mono_r 10) in Hle; try lia;
    pose proof (pow10_pos (nb_digits u)); nia.
Qed.

(** The value of a run of digits is below the power of ten of their
    number. *)
Lemma scan_digits_bound s :
  forall acc nd b v nd' rest,
    0 <= acc -> scan_digits s acc nd b = Some (v, nd', rest) ->
    (nd <= nd')%nat
    /\ 0 <= v < (acc + 1) * 10 ^ (Z.of_nat nd' - Z.of_nat nd).
Proof.
  induction s as [|c s IH]; intros acc nd b v nd' rest Ha; cbn [scan_digits].
  - destruct b; [discriminate|]. intros [= <- <- _].
    rewrite Z.sub_diag. change (10 ^ 0) with 1. lia.
  - destruct (is_digit c) eqn:Hc.
    + intros H. unfold is_digit in Hc. apply andb_true_iff in Hc as [H1 H2].
      apply Z.leb_le in H1. apply Z.leb_le in H2.
      change (ord "9") with (ord "0" + 9) in H2.
      apply IH in H as [Hnd Hv]; [|lia].
      split; [lia|].
      replace (Z.of_nat nd' - Z.of_nat nd)
        with (Z.succ (Z.of_nat nd' - Z.of_nat (S nd))) by lia.
      rewrite Z.pow_succ_r by lia.
      assert (0 < 10 ^ (Z.of_nat nd' - Z.of_nat (S nd)))
        by (apply Z.pow_pos_nonneg; lia).
      nia.
    + destruct (Ascii.eqb c "_").
      * destruct b; [discriminate|]. now apply IH.
      * destruct b; [discriminate|]. intros [= <- <- _].
        rewrite Z.sub_diag. change (10 ^ 0) with 1. lia.
Qed.

(** What [int] gives when it returns is below [10 ^ max_str_digits] in
    magnitude. *)
Lemma py_int_magnitude s n :
  py_int s = Some n -> Z.abs n < 10 ^ max_str_digits.
Proof.
  unfold py_int.
  destruct (match skip_space s with
            | [] => (false, skip_space s)
            | c :: r => if Ascii.eqb c "+" then (false, r)
                        else if Ascii.eqb c "-" then (true, r)
                        else (false, skip_space s)
            end) as [neg s2].
  destruct s2 as [|c r]; [discriminate|].
  destruct (Ascii.eqb c "_"); [discriminate|].
  destruct (scan_digits (c :: r) 0 0 false) as [[[v nd] rest]|] eqn:Hsc;
    [|discriminate].
  destruct nd as [|nd]; [discriminate|].
  destruct (skip_space rest); [|discriminate].
  destruct (max_str_digits <? Z.of_nat (S nd)) eqn:Hm; [discriminate|].
  apply Z.ltb_ge in Hm. intros [= <-].
  apply scan_digits_bound in Hsc as [_ Hv]; [|lia].
  rewrite Z.sub_0_r, Z.add_0_l, Z.mul_1_l in Hv.
  apply (Z.pow_le_mono_r 10) in Hm; [|lia].
  destruct neg; lia.
Qed.

(** So it can be printed. *)
Lemma py_int_printable s n :
  py_int s = Some n -> len (str_int (Z.abs n)) <= max_str_digits.
Proof.
  intros H. apply py_int_magnitude in H.
  apply digits_within; [lia|reflexivity].
Qed.

(** What [encode_integer] and [encode_string] give when they return. *)
Lemma encode_integer_Ok n e :
  encode_integer (VInt n) = Ok e ->
  e = B "i" ++ str_int n ++ B "e"
  /\ len (str_int (Z.abs n)) <= max_str_digits.
Proof.
  cbn [encode_integer]. destruct (py_str n) as [t|] eqn:Ht; [|discriminate].
  cbn [bind]. intros H. apply py_str_Ok in Ht as [-> Hm].
  split; [|exact Hm]. symmetry. now injection H.
Qed.

Lemma encode_bytes_Ok s e :
  encode_string (VBytes s) = Ok e ->
  e = str_int (len s) ++ B ":" ++ s
  /\ len (str_int (Z.abs (len s))) <= max_str_digits.
Proof.
  cbn [encode_string]. destruct (py_str (len s)) as [t|] eqn:Ht; [|discriminate].
  cbn [bind]. intros H. apply py_str_Ok in Ht as [-> Hm].
  split; [|exact Hm]. symmetry. now injection H.
Qed.

Lemma encode_str_Ok t e :
  encode_string (VStr t) = Ok e ->
  exists data, str_encode t = Ok data
               /\ e = str_int (len data) ++ B ":" ++ data
               /\ len (str_int (Z.abs (len data))) <= max_str_digits.
Proof.
  cbn [encode_string]. destruct (str_encode t) as [data|]; [|discriminate].
  intros H. exists data. split; [reflexivity|].
  now apply encode_bytes_Ok.
Qed.

Lemma str_int_numeric n : Forall (fun c => is_numeric c = true) (str_int n).
Proof.
  unfold str_int.
  destruct (Z.to_int n) as [u|u]; [|constructor; [reflexivity|]];
    (eapply Forall_impl; [|apply uint_bytes_digits]);
    intros c Hc; unfold is_numeric; now rewrite Hc.
Qed.

Lemma numeric_neq c x : is_numeric c = true -> is_numeric x = false ->
  Ascii.eqb c x = false.
Proof.
  intros Hc Hx. destruct (Ascii.eqb c x) eqn:E; [|reflexivity].
  apply Ascii.eqb_eq in E. congruence.
Qed.

Lemma str_int_without n x :
  is_numeric x = false ->
  Forall (fun c => Ascii.eqb c x = false) (str_int n).
Proof.
  intros Hx. eapply Forall_impl; [|apply str_int_numeric].
  intros c Hc. now apply numeric_neq.
Qed.

(** [str(n)] of a natural number starts with a digit. *)
Lemma str_int_nonneg_head n :
  0 <= n -> exists c s, str_int n = c :: s /\ is_digit c = true.
Proof.
  intros Hn. unfold str_int.
  assert (H : exists u, Z.to_int n = Pos u /\ u <> Nil).
  { destruct n as [|p|p]; [| |lia].
    - exists (D0 Nil). split; [reflexivity|discriminate].
    - exists (Pos.to_uint p). split; [reflexivity|].
      apply DecimalPos.Unsigned.to_uint_nonnil. }
  destruct H as (u & -> & Hu).
  pose proof (uint_bytes_digits u) as Hd.
  destruct (uint_bytes u) as [|c s] eqn:Hb.
  { destruct u; try discriminate Hb. contradiction. }
  inversion Hd; subst. eauto.
Qed.

(** ** Decoding an encoded integer and an encoded string in place *)

Lemma decode_integer_at n pre suf :
  len (str_int (Z.abs n)) <= max_str_digits ->
  decode_integer (BufBytes (pre ++ B "i" ++ str_int n ++ B "e" ++ suf)) (len pre)
  = Ok (n, len pre + 1 + len (str_int n)).
Proof.
  intros Hm.
  change (B "i") with ["i"%char]. change (B "e") with ["e"%char].
  cbn [List.app]. unfold decode_integer. cbn [bind].
  rewrite getitem_app. cbn [bind].
  change (negb (ord "i" =? ord "i")) with false. cbv iota.
  pose proof (len_nonneg pre). pose proof (len_nonneg (str_int n)).
  assert (Hf : find (pre ++ "i"%char :: str_int n ++ "e"%char :: suf) "e" (len pre)
               = len pre + 1 + len (str_int n)).
  { change (pre ++ "i"%char :: str_int n ++ "e"%char :: suf)
      with (pre ++ ("i"%char :: str_int n) ++ "e"%char :: suf).
    rewrite find_app, len_cons; [lia|].
    constructor; [reflexivity|]. now apply str_int_without. }
  rewrite Hf.
  destruct (len pre + 1 + len (str_int n) =? -1) eqn:E; [lia|].
  replace (pre ++ "i"%char :: str_int n ++ "e"%char :: suf)
    with ((pre ++ ["i"%char]) ++ str_int n ++ "e"%char :: suf)
    by (now rewrite <- List.app_assoc).
  replace (len pre + 1) with (len (pre ++ ["i"%char]))
    by (rewrite len_app; reflexivity).
  rewrite slice_app, py_int_str_int by exact Hm. reflexivity.
Qed.

Lemma decode_string_at s pre suf :
  len (str_int (Z.abs (len s))) <= max_str_digits ->
  decode_string (BufBytes (pre ++ str_int (len s) ++ B ":" ++ s ++ suf)) (len pre)
  = Ok (s, len pre + len (str_int (len s)) + len s).
Proof.
  intros Hm.
  change (B ":") with [":"%char]. cbn [List.app].
  unfold decode_string. cbn [bind].
  pose proof (len_nonneg pre). pose proof (len_nonneg (str_int (len s))).
  pose proof (len_nonneg s).
  rewrite find_app by (now apply str_int_without).
  destruct (len pre + len (str_int (len s)) =? -1) eqn:E; [lia|].
  rewrite slice_app, py_int_str_int by exact Hm.
  replace (pre ++ str_int (len s) ++ ":"%char :: s ++ suf)
    with ((pre ++ str_int (len s) ++ [":"%char]) ++ s ++ suf)
    by (now rewrite <- !List.app_assoc).
  replace (len pre + len (str_int (len s)) + 1)
    with (len (pre ++ str_int (len s) ++ [":"%char]))
    by (rewrite !len_app; change (len [":"%char]) with 1; lia).
  rewrite slice_app, Z.ltb_irrefl.
  f_equal. f_equal. rewrite !len_app. change (len [":"%char]) with 1. lia.
Qed.

(** ** The loops in terms of [dispatch] *)

Lemma decode_list_loop_step fuel data p contents r :
  (p <? len data) = true ->
  dispatch fuel data p = Some r ->
  decode_list_loop (S fuel) data p contents =
  ('(v, e) <~ r ;; decode_list_loop fuel data (e + 1) (contents ++ [v])).
Proof.
  intros Hp Hd. rewrite decode_list_loop_S, Hp.
  unfold dispatch in Hd.
  destruct (getitem data p) as [c|] eqn:Hc; [|discriminate].
  unfold fbind at 1. unfold lift at 1. cbv iota beta.
  destruct (ord c =? ord "i").
  { injection Hd as <-. unfold fbind, lift.
    now destruct (decode_integer (BufBytes data) p) as [[? ?]|]. }
  destruct ((ord "0" <=? ord c) && (ord c <=? ord "9")).
  { injection Hd as <-. unfold fbind, lift.
    now destruct (decode_string (BufBytes data) p) as [[? ?]|]. }
  destruct (ord c =? ord "l").
  { injection Hd as <-. unfold fbind.
    now destruct (decode_list fuel (BufBytes data) p) as [[[? ?]|]|]. }
  destruct (ord c =? ord "d"); [|discriminate].
  injection Hd as <-. unfold fbind.
  now destruct (decode_dictionary fuel (BufBytes data) p) as [[[? ?]|]|].
Qed.

Lemma decode_dictionary_loop_step fuel data p result c key e r :
  (p <? len data) = true ->
  getitem data p = Ok c ->
  (ord c =? ord "e") = false ->
  decode_string (BufBytes data) p = Ok (key, e) ->
  dispatch fuel data (e + 1) = Some r ->
  decode_dictionary_loop (S fuel) data p result =
  ('(v, e') <~ r ;;
   decode_dictionary_loop fuel data (e' + 1) (dict_setitem result key v)).
Proof.
  intros Hp Hc He Hk Hd. rewrite decode_dictionary_loop_S, Hp, Hc.
  unfold fbind at 1. unfold lift at 1. cbv iota beta.
  rewrite He, Hk. unfold fbind at 1. unfold lift at 1. cbv iota beta zeta.
  unfold dispatch in Hd.
  destruct (getitem data (e + 1)) as [c'|] eqn:Hc'; [|discriminate].
  unfold fbind at 1. unfold lift at 1. cbv iota beta.
  destruct (ord c' =? ord "i").
  { injection Hd as <-. unfold fbind, lift.
    now destruct (decode_integer (BufBytes data) (e + 1)) as [[? ?]|]. }
  destruct ((ord "0" <=? ord c') && (ord c' <=? ord "9")).
  { injection Hd as <-. unfold fbind, lift.
    now destruct (decode_string (BufBytes data) (e + 1)) as [[? ?]|]. }
  destruct (ord c' =? ord "l").
  { injection Hd as <-. unfold fbind.
    now destruct (decode_list fuel (BufBytes data) (e + 1)) as [[[? ?]|]|]. }
  destruct (ord c' =? ord "d"); [|discriminate].
  injection Hd as <-. unfold fbind.
  now destruct (decode_dictionary fuel (BufBytes data) (e + 1)) as [[[? ?]|]|].
Qed.

Lemma decode_dispatch fuel data pos r :
  dispatch fuel data pos = Some r ->
  decode fuel (BufBytes data) pos = ('(v, _) <~ r ;; Some (Ok v)).
Proof.
  intros Hd. unfold decode, dispatch in *.
  unfold fbind at 1. unfold lift at 1. cbv iota beta.
  destruct (getitem data pos) as [c|] eqn:Hc; [|discriminate].
  unfold fbind at 1. unfold lift at 1. cbv iota beta.
  destruct (ord c =? ord "i").
  { injection Hd as <-. unfold fbind, lift.
    now destruct (decode_integer (BufBytes data) pos) as [[? ?]|]. }
  destruct ((ord "0" <=? ord c) && (ord c <=? ord "9")).
  { injection Hd as <-. unfold fbind, lift.
    now destruct (decode_string (BufBytes data) pos) as [[? ?]|]. }
  destruct (ord c =? ord "l").
  { injection Hd as <-. unfold fbind.
    now destruct (decode_list fuel (BufBytes data) pos) as [[[? ?]|]|]. }
  destruct (ord c =? ord "d"); [|discriminate].
  injection Hd as <-. unfold fbind.
  now destruct (decode_dictionary fuel (BufBytes data) pos) as [[[? ?]|]|].
Qed.

Lemma bind_assoc_app3 (r : outcome bytes) (acc k x : bytes) :
  (body <- (y <- r ;; Ok (k ++ x ++ y)) ;; Ok (acc ++ body ++ B "e")) =
  (body <- r ;; Ok (((acc ++ k) ++ x) ++ body ++ B "e")).
Proof. destruct r; simpl; [now rewrite <- !List.app_assoc | reflexivity]. Qed.

Lemma encode_dictionary_loop_pairs d :
  forall acc,
    encode_dictionary_loop d acc =
    (body <- encode_pairs d ;; Ok (acc ++ body ++ B "e")).
Proof.
  induction d as [|[key v] d IH]; intros acc; [reflexivity|].
  cbn [encode_dictionary_loop encode_pairs]. fold encode_dictionary_loop.
  destruct (is_string key); [|reflexivity].
  destruct (encode_string key) as [k|]; cbn [bind]; [|reflexivity].
  destruct v; unfold encode;
    cbn [supported_kind is_int is_string is_list is_dict orb];
    try reflexivity;
    match goal with
    | |- context [bind ?r _] =>
        destruct r as [x|e] eqn:E; cbn [bind]; [|reflexivity]
    end;
    rewrite IH; now rewrite bind_assoc_app3.
Qed.

Lemma encode_dictionary_pairs d :
  encode_dictionary (VDict d) =
  (body <- encode_pairs d ;; Ok (B "d" ++ body ++ B "e")).
Proof. rewrite encode_dictionary_VDict. apply encode_dictionary_loop_pairs. Qed.

(** ** Dictionaries built by the decoder *)

Lemma bytes_eqb_eq x y : bytes_eqb x y = true <-> x = y.
Proof.
  revert y. induction x as [|a x IH]; intros [|c y]; cbn [bytes_eqb];
    try (split; [discriminate|discriminate]); [tauto|].
  rewrite andb_true_iff, Ascii.eqb_eq, IH.
  split; [intros [-> ->]; reflexivity | intros [= -> ->]; auto].
Qed.

Lemma dict_contains_app a c key :
  dict_contains (a ++ c) key = dict_contains a key || dict_contains c key.
Proof.
  induction a as [|[k v] a IH]; [reflexivity|].
  cbn [List.app dict_contains]. destruct k; try apply IH.
  now rewrite IH, orb_assoc.
Qed.

Lemma dict_setitem_fresh d key v :
  dict_contains d key = false ->
  dict_setitem d key v = d ++ [(VBytes key, v)].
Proof.
  induction d as [|[k x] d IH]; intros H; [reflexivity|].
  cbn [dict_contains] in H. cbn [dict_setitem List.app].
  destruct k; try (now rewrite IH).
  apply orb_false_elim in H as [H1 H2]. now rewrite H1, IH.
Qed.

(** Setting a key twice to the same value is setting it once: in the
    cycle above the dictionary no longer changes after the first turn. *)
Lemma dict_setitem_idem d key v :
  dict_setitem (dict_setitem d key v) key v = dict_setitem d key v.
Proof.
  induction d as [|[k x] d IH]; cbn [dict_setitem].
  - now rewrite (proj2 (bytes_eqb_eq key key) eq_refl).
  - destruct k; cbn [dict_setitem]; try (now rewrite IH).
    destruct (bytes_eqb s key) eqn:E; cbn [dict_setitem]; rewrite E;
      [reflexivity | now rewrite IH].
Qed.

(** ** Decoding the encoding of a value, in place *)

Lemma size_pos v : (1 <= size v)%nat.
Proof. destruct v; cbn [size]; lia. Qed.

Lemma bencodable_supported_kind v :
  bencodable v = true -> supported_kind v = true.
Proof. destruct v; try discriminate; reflexivity. Qed.

Lemma filter_bencodable l :
  forallb bencodable l = true -> filter supported_kind l = l.
Proof.
  induction l as [|x l IH]; [reflexivity|].
  cbn [forallb filter]. intros H. apply andb_true_iff in H as [Hx Hl].
  now rewrite (bencodable_supported_kind x Hx), IH.
Qed.

Lemma digit_is_not c x :
  is_digit c = true -> is_digit x = false -> (ord c =? ord x) = false.
Proof.
  intros Hc Hx. destruct (ord c =? ord x) eqn:E; [|reflexivity].
  apply ord_eqb_eq in E. congruence.
Qed.

Lemma dispatch_integer fuel data p :
  getitem data p = Ok "i"%char ->
  dispatch fuel data p =
  Some ('(integer, e) <~ lift (decode_integer (BufBytes data) p) ;;
        Some (Ok (VInt integer, e))).
Proof. intros H. unfold dispatch. now rewrite H. Qed.

Lemma dispatch_string fuel data p c :
  getitem data p = Ok c -> is_digit c = true ->
  dispatch fuel data p =
  Some ('(string, e) <~ lift (decode_string (BufBytes data) p) ;;
        Some (Ok (VBytes string, e))).
Proof.
  intros H Hc. unfold dispatch. rewrite H.
  rewrite (digit_is_not c "i") by (assumption || reflexivity).
  change ((ord "0" <=? ord c) && (ord c <=? ord "9")) with (is_digit c).
  now rewrite Hc.
Qed.

Lemma dispatch_list fuel data p :
  getitem data p = Ok "l"%char ->
  dispatch fuel data p =
  Some ('(_list, e) <~ decode_list fuel (BufBytes data) p ;;
        Some (Ok (VList _list, e))).
Proof. intros H. unfold dispatch. now rewrite H. Qed.

Lemma dispatch_dictionary fuel data p :
  getitem data p = Ok "d"%char ->
  dispatch fuel data p =
  Some ('(dictionary, e) <~ decode_dictionary fuel (BufBytes data) p ;;
        Some (Ok (VDict dictionary, e))).
Proof. intros H. unfold dispatch. now rewrite H. Qed.

Lemma inside pre (c : ascii) rest : (len pre <? len (pre ++ c :: rest)) = true.
Proof.
  rewrite len_app, len_cons. pose proof (len_nonneg rest).
  apply Z.ltb_lt. lia.
Qed.

Lemma inside_mid pre mid (c : ascii) rest :
  (len pre <? len (pre ++ mid ++ c :: rest)) = true.
Proof.
  rewrite !len_app, len_cons.
  pose proof (len_nonneg rest). pose proof (len_nonneg mid).
  apply Z.ltb_lt. lia.
Qed.

Lemma Ok_inj {A} (a c : A) : Ok a = Ok c -> a = c.
Proof. now intros [= ->]. Qed.

Lemma value_at_S fuel : items_at fuel -> pairs_at fuel -> value_at (S fuel).
Proof.
  intros Hitems Hpairs v e data pre suf Hb He Hs ->.
  destruct v as [n| |s| |l|d| |]; try discriminate Hb.
  - (* an integer *)
    change (encode_integer (VInt n) = Ok e) in He.
    apply encode_integer_Ok in He as [-> Hm].
    assert (Hdata : pre ++ (B "i" ++ str_int n ++ B "e") ++ suf
                    = pre ++ B "i" ++ str_int n ++ B "e" ++ suf)
      by (now rewrite <- !List.app_assoc).
    rewrite Hdata, dispatch_integer by apply getitem_app.
    rewrite decode_integer_at by exact Hm. cbn [fbind lift].
    rewrite !len_app. change (len (B "i")) with 1. change (len (B "e")) with 1.
    do 4 f_equal. lia.
  - (* a byte string *)
    change (encode_string (VBytes s) = Ok e) in He.
    apply encode_bytes_Ok in He as [-> Hm].
    assert (Hdata : pre ++ (str_int (len s) ++ B ":" ++ s) ++ suf
                    = pre ++ str_int (len s) ++ B ":" ++ s ++ suf)
      by (now rewrite <- !List.app_assoc).
    rewrite Hdata.
    destruct (str_int_nonneg_head (len s) (len_nonneg s)) as (c & r & Hh & Hc).
    rewrite (dispatch_string _ _ _ c); [| |exact Hc].
    + rewrite decode_string_at by exact Hm. cbn [fbind lift].
      rewrite !len_app. change (len (B ":")) with 1.
      do 4 f_equal. lia.
    + rewrite Hh. apply getitem_app.
  - (* a list *)
    unfold encode in He. cbn [is_string is_int is_list] in He.
    rewrite encode_list_items, filter_bencodable in He by exact Hb.
    destruct (encode_items l) as [body|] eqn:Hl; [|discriminate He].
    cbn [bind] in He. apply Ok_inj in He. subst e.
    rewrite dispatch_list by apply getitem_app.
    rewrite decode_list_S.
    change (pre ++ (B "l" ++ body ++ B "e") ++ suf)
      with (pre ++ "l"%char :: (body ++ B "e") ++ suf).
    rewrite getitem_app. cbn [fbind lift].
    change (negb (ord "l" =? ord "l")) with false. cbv iota.
    replace (len pre + 1) with (len (pre ++ B "l"))
      by (rewrite len_app; reflexivity).
    rewrite (Hitems l body _ (pre ++ B "l") suf []); trivial.
    + cbn [List.app fbind]. rewrite ?len_app, ?len_cons.
      change (len (B "l")) with 1. change (len (B "e")) with 1.
      do 4 f_equal. lia.
    + cbn [size] in Hs. fold (items_size l) in Hs. lia.
    + now rewrite <- !List.app_assoc.
  - (* a dictionary *)
    cbn [bencodable] in Hb. apply andb_true_iff in Hb as [Hb Hk].
    unfold encode in He. cbn [is_string is_int is_list is_dict] in He.
    rewrite encode_dictionary_pairs in He.
    destruct (encode_pairs d) as [body|] eqn:Hd; [|discriminate He].
    cbn [bind] in He. apply Ok_inj in He. subst e.
    rewrite dispatch_dictionary by apply getitem_app.
    rewrite decode_dictionary_S.
    change (pre ++ (B "d" ++ body ++ B "e") ++ suf)
      with (pre ++ "d"%char :: (body ++ B "e") ++ suf).
    rewrite getitem_app. cbn [fbind lift].
    change (negb (ord "d" =? ord "d")) with false. cbv iota.
    replace (len pre + 1) with (len (pre ++ B "d"))
      by (rewrite len_app; reflexivity).
    rewrite (Hpairs d body _ (pre ++ B "d") suf []); trivial.
    + cbn [List.app fbind]. rewrite ?len_app, ?len_cons.
      change (len (B "d")) with 1. change (len (B "e")) with 1.
      do 4 f_equal. lia.
    + cbn [size] in Hs. fold (pairs_size d) in Hs. lia.
    + now rewrite <- !List.app_assoc.
Qed.

Lemma items_at_S fuel : value_at fuel -> items_at fuel -> items_at (S fuel).
Proof.
  intros Hv Hi l body data pre suf contents Hb He Hs ->.
  change (B "e") with ["e"%char]. cbn [List.app].
  destruct l as [|x l].
  - apply Ok_inj in He. subst body. cbn [List.app].
    rewrite decode_list_loop_S, inside, getitem_app.
    rewrite List.app_nil_r. change (len []) with 0. rewrite Z.add_0_r.
    reflexivity.
  - cbn [forallb] in Hb. apply andb_true_iff in Hb as [Hx Hl].
    cbn [encode_items] in He.
    destruct (encode x) as [xe|] eqn:Hxe; [|discriminate He].
    destruct (encode_items l) as [r|] eqn:Hr; [|discriminate He].
    cbn [bind] in He. apply Ok_inj in He. subst body.
    cbn [items_size fold_right] in Hs. fold (items_size l) in Hs.
    pose proof (size_pos x).
    rewrite (decode_list_loop_step fuel _ _ _
               (Some (Ok (x, len pre + len xe - 1)))).
    + cbn [fbind].
      replace (len pre + len xe - 1 + 1) with (len (pre ++ xe))
        by (rewrite len_app; lia).
      rewrite (Hi l r _ (pre ++ xe) suf (contents ++ [x])); trivial.
      * rewrite <- List.app_assoc, !len_app. cbn [List.app].
        do 3 f_equal. lia.
      * lia.
      * change (B "e") with ["e"%char]. cbn [List.app].
        now rewrite <- !List.app_assoc.
    + apply inside_mid.
    + apply (Hv x xe _ pre (r ++ "e"%char :: suf)); trivial; [lia|].
      now rewrite <- !List.app_assoc.
Qed.

Lemma dict_contains_head s x d : dict_contains ((VBytes s, x) :: d) s = true.
Proof.
  cbn [dict_contains].
  now rewrite (proj2 (bytes_eqb_eq s s) eq_refl).
Qed.

Lemma pairs_at_S fuel : value_at fuel -> pairs_at fuel -> pairs_at (S fuel).
Proof.
  intros Hv Hp d body data pre suf result Hb Hk Hfresh He Hs ->.
  change (B "e") with ["e"%char]. cbn [List.app].
  destruct d as [|[key x] d].
  - apply Ok_inj in He. subst body. cbn [List.app].
    rewrite decode_dictionary_loop_S, inside, getitem_app.
    rewrite List.app_nil_r. change (len []) with 0. rewrite Z.add_0_r.
    reflexivity.
  - cbn [forallb] in Hb. apply andb_true_iff in Hb as [Hx Hd].
    unfold bencodable_pair in Hx. cbn [fst snd] in Hx.
    destruct key as [| |s| | | | |]; try discriminate Hx.
    cbn [distinct_keys] in Hk. apply andb_true_iff in Hk as [Hnew Hk].
    apply negb_true_iff in Hnew.
    cbn [encode_pairs is_string] in He.
    destruct (encode_string (VBytes s)) as [k0|] eqn:Hk0; [|discriminate He].
    apply encode_bytes_Ok in Hk0 as [-> Hm].
    cbn [bind] in He.
    rewrite (bencodable_supported_kind x Hx) in He.
    destruct (encode x) as [xe|] eqn:Hxe; [|discriminate He].
    destruct (encode_pairs d) as [r|] eqn:Hr; [|discriminate He].
    cbn [bind] in He. apply Ok_inj in He. subst body.
    cbn [pairs_size fold_right snd] in Hs. fold (pairs_size d) in Hs.
    pose proof (size_pos x).
    set (k := str_int (len s) ++ B ":" ++ s).
    destruct (str_int_nonneg_head (len s) (len_nonneg s)) as (c & t & Hh & Hc).
    assert (Hdata : pre ++ (k ++ xe ++ r) ++ "e"%char :: suf
                    = pre ++ str_int (len s) ++ B ":" ++ s
                        ++ (xe ++ r ++ "e"%char :: suf)).
    { unfold k. now rewrite <- !List.app_assoc. }
    assert (Hlen : len pre + len (str_int (len s)) + len s + 1 = len (pre ++ k)).
    { unfold k. rewrite !len_app. change (len (B ":")) with 1. lia. }
    rewrite (decode_dictionary_loop_step fuel _ _ _ c s
               (len pre + len (str_int (len s)) + len s)
               (Some (Ok (x, len (pre ++ k) + len xe - 1)))).
    + cbn [fbind].
      replace (len (pre ++ k) + len xe - 1 + 1) with (len ((pre ++ k) ++ xe))
        by (rewrite !len_app; lia).
      rewrite dict_setitem_fresh by (apply Hfresh, dict_contains_head).
      rewrite (Hp d r _ ((pre ++ k) ++ xe) suf (result ++ [(VBytes s, x)]));
        trivial.
      * rewrite <- List.app_assoc, !len_app. cbn [List.app].
        do 3 f_equal. lia.
      * intros s' Hs'. rewrite dict_contains_app.
        rewrite Hfresh
          by (cbn [dict_contains]; rewrite Hs'; apply orb_true_r).
        cbn [dict_contains orb]. rewrite orb_false_r.
        destruct (bytes_eqb s s') eqn:E; [|reflexivity].
        apply bytes_eqb_eq in E. subst s'. congruence.
      * lia.
      * change (B "e") with ["e"%char]. cbn [List.app].
        now rewrite <- !List.app_assoc.
    + apply inside_mid.
    + rewrite Hdata, Hh. cbn [List.app]. apply getitem_app.
    + now apply digit_is_not.
    + rewrite Hdata. now apply decode_string_at.
    + rewrite Hlen.
      apply (Hv x xe _ (pre ++ k) (r ++ "e"%char :: suf)); trivial; [lia|].
      now rewrite <- !List.app_assoc.
Qed.

Lemma decode_encoded fuel : value_at fuel /\ items_at fuel /\ pairs_at fuel.
Proof.
  induction fuel as [|fuel (Hv & Hi & Hp)].
  - repeat split.
    + intros v e data pre suf _ _ Hs. pose proof (size_pos v). lia.
    + intros l body data pre suf contents _ _ Hs. lia.
    + intros d body data pre suf result _ _ _ _ Hs. lia.
  - repeat split;
      [now apply value_at_S | now apply items_at_S | now apply pairs_at_S].
Qed.

(** ** Round trip *)

Lemma decode_encode v e fuel :
  bencodable v = true -> encode v = Ok e -> (size v <= fuel)%nat ->
  decode fuel (BufBytes e) 0 = Some (Ok v).
Proof.
  intros Hb He Hs.
  destruct (decode_encoded fuel) as [Hv _].
  specialize (Hv v e e [] [] Hb He Hs).
  cbn [List.app] in Hv. rewrite List.app_nil_r in Hv.
  specialize (Hv eq_refl). change (len []) with 0 in Hv.
  now rewrite (decode_dispatch _ _ _ _ Hv).
Qed.

Lemma encode_items_total l :
  Forall (fun x => exists e, encode x = Ok e) l ->
  exists body, encode_items l = Ok body.
Proof.
  induction 1 as [|x l [e He] _ [body Hbody]]; cbn [encode_items].
  - eauto.
  - rewrite He, Hbody. cbn [bind]. eauto.
Qed.

Lemma encode_pairs_total d :
  Forall (fun kv => bencodable_pair kv = true
                    /\ within_limits (fst kv) = true
                    /\ exists e, encode (snd kv) = Ok e) d ->
  exists body, encode_pairs d = Ok body.
Proof.
  induction 1 as [|[k x] d (Hk & Hw & e & He) _ [body Hbody]];
    cbn [encode_pairs].
  - eauto.
  - unfold bencodable_pair in Hk. cbn [fst snd] in Hk, Hw, He.
    destruct k as [| |s| | | | |]; try discriminate Hk.
    cbn [within_limits] in Hw. apply Z.leb_le in Hw.
    cbn [is_string encode_string]. rewrite (py_str_within _ Hw).
    cbn [bind]. rewrite (bencodable_supported_kind x Hk), He, Hbody.
    cbn [bind]. eauto.
Qed.

(** A value of the format whose integers and lengths can be printed is
    encoded without error. *)
Lemma encode_total n :
  forall v, (size v <= n)%nat -> bencodable v = true ->
            within_limits v = true -> exists e, encode v = Ok e.
Proof.
  induction n as [|n IH]; intros v Hs Hb Hw.
  { pose proof (size_pos v). lia. }
  destruct v as [z| |s| |l|d| |]; try discriminate Hb.
  - cbn [within_limits] in Hw. apply Z.leb_le in Hw.
    change (encode (VInt z)) with (encode_integer (VInt z)).
    cbn [encode_integer]. rewrite (py_str_within _ Hw). cbn [bind]. eauto.
  - cbn [within_limits] in Hw. apply Z.leb_le in Hw.
    change (encode (VBytes s)) with (encode_string (VBytes s)).
    cbn [encode_string]. rewrite (py_str_within _ Hw). cbn [bind]. eauto.
  - unfold encode. cbn [is_string is_int is_list].
    rewrite encode_list_items, filter_bencodable by exact Hb.
    destruct (encode_items_total l) as [body ->]; [|cbn [bind]; eauto].
    cbn [bencodable] in Hb. cbn [within_limits] in Hw.
    cbn [size] in Hs. fold (items_size l) in Hs.
    assert (Hl : (items_size l <= n)%nat) by lia. clear Hs.
    induction l as [|x l IHl]; constructor.
    + cbn [forallb] in Hb, Hw. apply andb_true_iff in Hb as [Hx _].
      apply andb_true_iff in Hw as [Hwx _].
      cbn [items_size fold_right] in Hl. apply IH; [lia|exact Hx|exact Hwx].
    + cbn [forallb] in Hb, Hw. apply andb_true_iff in Hb as [_ Hb].
      apply andb_true_iff in Hw as [_ Hw].
      cbn [items_size fold_right] in Hl. fold (items_size l) in Hl.
      apply IHl; [exact Hb|exact Hw|lia].
  - unfold encode. cbn [is_string is_int is_list is_dict].
    rewrite encode_dictionary_pairs.
    destruct (encode_pairs_total d) as [body ->]; [|cbn [bind]; eauto].
    cbn [bencodable] in Hb. apply andb_true_iff in Hb as [Hb _].
    fold bencodable_pair in Hb. cbn [within_limits] in Hw.
    cbn [size] in Hs. fold (pairs_size d) in Hs.
    assert (Hd : (pairs_size d <= n)%nat) by lia. clear Hs.
    induction d as [|[k x] d IHd]; constructor.
    + cbn [forallb] in Hb, Hw. apply andb_true_iff in Hb as [Hx _].
      apply andb_true_iff in Hw as [Hwx _].
      cbn [fst snd] in Hwx. apply andb_true_iff in Hwx as [Hwk Hwx].
      split; [exact Hx|]. split; [exact Hwk|].
      unfold pairs_size in Hd. cbn [fold_right snd] in Hd. cbn [snd].
      apply IH; [lia| |exact Hwx].
      unfold bencodable_pair in Hx. cbn [fst snd] in Hx.
      now destruct k.
    + cbn [forallb] in Hb, Hw. apply andb_true_iff in Hb as [_ Hb].
      apply andb_true_iff in Hw as [_ Hw].
      unfold pairs_size in Hd. cbn [fold_right] in Hd.
      fold (pairs_size d) in Hd. apply IHd; [exact Hb|exact Hw|lia].
Qed.

(** C1, the claim as stated fails: an integer of 4301 digits is not
    encoded, [encode] raises [ValueError]; and [True], which the encoder
    takes for an integer, is encoded as [iTruee], which [decode]
    refuses. *)
Theorem encode_not_always_decodable :
  encode (VInt (10 ^ 4300)) = Raise ValueError
  /\ encode (VBool true) = Ok (B "iTruee")
  /\ forall fuel,
       decode fuel (BufBytes (B "iTruee")) 0 = Some (Raise DecodeIntegerError).
Proof.
  split; [vm_compute; reflexivity|]. split; [reflexivity|].
  intros fuel. reflexivity.
Qed.

(** C1, amended: for a value of the four kinds of the format, integers
    proper only, whenever [encode] returns, decoding what it returns
    gives the value back (with any fuel from [size v] on). *)
Theorem decode_encode_roundtrip v e fuel :
  bencodable v = true -> encode v = Ok e -> (size v <= fuel)%nat ->
  decode fuel (BufBytes e) 0 = Some (Ok v).
Proof. apply decode_encode. Qed.

Lemma decode_encode_roundtrip_witness :
  decode 10 (BufBytes (B "d1:kli-3e2:abe0:dee")) 0
  = Some (Ok (VDict [(VBytes (B "k"), VList [VInt (-3); VBytes (B "ab")]);
                     (VBytes (B ""), VDict [])])).
Proof.
  apply (decode_encode_roundtrip
           (VDict [(VBytes (B "k"), VList [VInt (-3); VBytes (B "ab")]);
                   (VBytes (B ""), VDict [])])
           (B "d1:kli-3e2:abe0:dee") 10);
    [reflexivity | reflexivity | cbn; lia].
Defined.

(** *** What the encoder makes of a value *)

Lemma to_format_VList l : to_format (VList l) = VList (format_items l).
Proof. reflexivity. Qed.

Lemma supported_kind_to_format v :
  supported_kind (to_format v) = supported_kind v.
Proof. destruct v; reflexivity. Qed.

Lemma is_string_to_format v : is_string (to_format v) = is_string v.
Proof. destruct v; reflexivity. Qed.

Lemma encode_string_to_format k e :
  encode_string k = Ok e -> encode_string (to_format k) = Ok e.
Proof.
  destruct k as [| | |t| | | |]; try discriminate; [trivial|].
  cbn [encode_string to_format]. unfold utf8.
  destruct (str_encode t) as [data|]; [|discriminate].
  trivial.
Qed.

Lemma filter_format_items l :
  filter supported_kind (format_items l) = format_items l.
Proof.
  induction l as [|x l IH]; [reflexivity|].
  cbn [format_items]. fold format_items.
  destruct (supported_kind x) eqn:E; [|exact IH].
  cbn [filter]. now rewrite supported_kind_to_format, E, IH.
Qed.

(** The encoding of [v] is the encoding of [to_format v]. *)
Lemma encode_to_format n :
  forall v b, (size v <= n)%nat -> encode v = Ok b ->
              encode (to_format v) = Ok b.
Proof.
  induction n as [|n IH]; intros v b Hs He.
  { pose proof (size_pos v). lia. }
  destruct v as [z|c|s|t|l|d| |]; try exact He.
  - (* text *)
    change (encode_string (to_format (VStr t)) = Ok b).
    now apply encode_string_to_format.
  - (* a list *)
    rewrite to_format_VList.
    unfold encode in He |- *. cbn [is_string is_int is_list] in He |- *.
    rewrite encode_list_items in He |- *. rewrite filter_format_items.
    destruct (encode_items (filter supported_kind l)) as [body|] eqn:Hl;
      [|discriminate He].
    cbn [size] in Hs. fold (items_size l) in Hs.
    assert (Hn : (items_size l <= n)%nat) by lia. clear Hs.
    enough (H : encode_items (format_items l) = Ok body) by now rewrite H.
    clear He. revert body Hl Hn.
    induction l as [|x l IHl]; intros body Hl Hn; [exact Hl|].
    cbn [items_size fold_right] in Hn. fold (items_size l) in Hn.
    cbn [format_items filter] in Hl |- *. fold format_items.
    destruct (supported_kind x); [|apply IHl; [exact Hl|lia]].
    cbn [encode_items] in Hl |- *.
    destruct (encode x) as [xe|] eqn:Hx; [|discriminate Hl].
    rewrite (IH x xe) by (trivial; lia).
    destruct (encode_items (filter supported_kind l)) as [r|] eqn:Hr;
      [|discriminate Hl].
    rewrite (IHl r) by (trivial; lia). exact Hl.
  - (* a dictionary *)
    cbn [to_format].
    unfold encode in He |- *.
    cbn [is_string is_int is_list is_dict] in He |- *.
    rewrite encode_dictionary_pairs in He |- *.
    destruct (encode_pairs d) as [body|] eqn:Hd; [|discriminate He].
    cbn [size] in Hs. fold (pairs_size d) in Hs.
    assert (Hn : (pairs_size d <= n)%nat) by lia. clear Hs.
    enough (H : encode_pairs
                  (map (fun kv => (to_format (fst kv), to_format (snd kv))) d)
                = Ok body) by now rewrite H.
    clear He. revert body Hd Hn.
    induction d as [|[k x] d IHd]; intros body Hd Hn; [exact Hd|].
    unfold pairs_size in Hn. cbn [fold_right snd] in Hn.
    fold (pairs_size d) in Hn.
    cbn [map fst snd encode_pairs] in Hd |- *.
    rewrite is_string_to_format, supported_kind_to_format.
    destruct (is_string k); [|discriminate Hd].
    destruct (encode_string k) as [ke|] eqn:Hk; [|discriminate Hd].
    rewrite (encode_string_to_format k ke Hk).
    cbn [bind] in Hd |- *.
    destruct (supported_kind x); [|discriminate Hd].
    destruct (encode x) as [xe|] eqn:Hx; [|discriminate Hd].
    rewrite (IH x xe) by (trivial; lia).
    destruct (encode_pairs d) as [r|] eqn:Hr; [|discriminate Hd].
    rewrite (IHd r) by (trivial; lia). exact Hd.
Qed.

(** C6, the claim as stated fails: the encoder writes a text key and a
    [bytes] key with the same bytes as two equal keys; the decoder keeps
    one of them, and the result is encoded to other bytes than the
    buffer it was decoded from. *)
Theorem reencode_equal_keys :
  encode (VDict [(VStr [97%N], VInt 1); (VBytes (B "a"), VInt 2)])
  = Ok (B "d1:ai1e1:ai2ee")
  /\ (forall fuel,
        decode (4 + fuel) (BufBytes (B "d1:ai1e1:ai2ee")) 0
        = Some (Ok (VDict [(VBytes (B "a"), VInt 2)])))
  /\ encode (VDict [(VBytes (B "a"), VInt 2)]) = Ok (B "d1:ai2ee").
Proof.
  split; [reflexivity|]. split; [|reflexivity].
  intros fuel. reflexivity.
Qed.

(** C6, amended: when [b] is the encoding of [v], and what the encoder
    makes of [v] is a value of the format (no [bool] in it, and no two
    keys of a dictionary with the same bytes), decoding [b] returns that
    value, and its encoding is [b]. *)
Theorem encode_decode_reencode v b fuel :
  encode v = Ok b -> bencodable (to_format v) = true ->
  (size (to_format v) <= fuel)%nat ->
  decode fuel (BufBytes b) 0 = Some (Ok (to_format v))
  /\ encode (to_format v) = Ok b.
Proof.
  intros He Hb Hs.
  pose proof (encode_to_format (size v) v b (le_n _) He) as Hf.
  split; [|exact Hf]. now apply decode_encode.
Qed.

Lemma encode_decode_reencode_witness :
  decode 7 (BufBytes (B "l4:spamd1:ki-7eee")) 0
  = Some (Ok (VList [VBytes (B "spam"); VDict [(VBytes (B "k"), VInt (-7))]]))
  /\ encode (VList [VBytes (B "spam"); VDict [(VBytes (B "k"), VInt (-7))]])
     = Ok (B "l4:spamd1:ki-7eee").
Proof.
  apply (encode_decode_reencode
           (VList [VStr [115; 112; 97; 109]%N; VOther "float";
                   VDict [(VStr [107%N], VInt (-7))]])
           (B "l4:spamd1:ki-7eee") 7); [reflexivity|reflexivity|].
  cbn. lia.
Defined.

(** ** End positions *)

Lemma find_from_range c l :
  forall i, 0 <= i ->
    find_from c l i = -1
    \/ (i <= find_from c l i < i + len l
        /\ nth_error l (Z.to_nat (find_from c l i - i)) = Some c).
Proof.
  induction l as [|x l IH]; intros i Hi; cbn [find_from]; [now left|].
  rewrite len_cons. pose proof (len_nonneg l).
  destruct (Ascii.eqb x c) eqn:E.
  - apply Ascii.eqb_eq in E. subst x. right.
    rewrite Z.sub_diag. split; [lia|reflexivity].
  - destruct (IH (i + 1)) as [H1|[H1 H2]]; [lia|now left|right].
    split; [lia|].
    replace (Z.to_nat (find_from c l (i + 1) - i))
      with (S (Z.to_nat (find_from c l (i + 1) - (i + 1)))) by lia.
    exact H2.
Qed.

(** [data.find] returns -1 or the index of a byte equal to the
    pattern. *)
Lemma find_range data c start :
  find data c start = -1
  \/ (0 <= find data c start < len data
      /\ getitem data (find data c start) = Ok c).
Proof.
  unfold find.
  set (s := if start <? 0 then Z.max 0 (start + len data) else start).
  destruct (len data <? s) eqn:E; [now left|].
  apply Z.ltb_ge in E.
  assert (Hs : 0 <= s).
  { unfold s. destruct (start <? 0) eqn:E0; [lia|]. now apply Z.ltb_ge. }
  destruct (find_from_range c (skipn (Z.to_nat s) data) s Hs)
    as [H|[H1 H2]]; [now left|right].
  assert (Hl : len (skipn (Z.to_nat s) data) = len data - s).
  { unfold len in *. rewrite length_skipn. lia. }
  rewrite Hl in H1. split; [lia|].
  unfold getitem.
  set (r := find_from c (skipn (Z.to_nat s) data) s) in *.
  destruct (r <? 0) eqn:E1; [lia|]. rewrite E1. cbn [orb].
  destruct (len data <=? r) eqn:E2; [lia|].
  rewrite nth_error_skipn in H2.
  replace (Z.to_nat s + Z.to_nat (r - s))%nat with (Z.to_nat r) in H2 by lia.
  now rewrite H2.
Qed.

Lemma len_slice data lo hi :
  0 <= lo <= hi -> len (slice data lo hi) <= hi - lo.
Proof.
  intros H. unfold slice, adjust_bound.
  pose proof (len_nonneg data).
  destruct (lo <? 0) eqn:E1; [lia|]. rewrite E1.
  destruct (hi <? 0) eqn:E2; [lia|]. rewrite E2.
  unfold len at 1. rewrite length_firstn.
  destruct (len data <? lo) eqn:E3, (len data <? hi) eqn:E4; lia.
Qed.

(** [decode_integer] returns the index of an [e]. *)
Lemma decode_integer_end data pos n e :
  decode_integer (BufBytes data) pos = Ok (n, e) ->
  e = find data "e" pos /\ 0 <= e < len data /\ getitem data e = Ok "e"%char.
Proof.
  unfold decode_integer. cbn [bind].
  destruct (getitem data pos) as [c|]; cbn [bind]; [|discriminate].
  destruct (negb (ord c =? ord "i")); [discriminate|].
  destruct (find data "e" pos =? -1) eqn:E; [discriminate|].
  destruct (py_int _); [|discriminate].
  intros [= _ <-]. apply Z.eqb_neq in E.
  destruct (find_range data "e" pos) as [H|[H1 H2]]; [contradiction|auto].
Qed.

(** [decode_string] returns the index of the colon plus the declared
    length; when that length is not negative, it is the length of the
    payload, so that the end position is the index of the last byte of
    the payload, or of the colon when the payload is empty. *)
Lemma decode_string_end data pos s e :
  decode_string (BufBytes data) pos = Ok (s, e) ->
  let colon_index := find data ":" pos in
  getitem data colon_index = Ok ":"%char
  /\ exists length,
       py_int (slice data pos colon_index) = Some length
       /\ s = slice data (colon_index + 1) (colon_index + 1 + length)
       /\ e = colon_index + length
       /\ (0 <= length -> len s = length).
Proof.
  unfold decode_string. cbn [bind]. intros H. cbv zeta.
  set (colon_index := find data ":" pos) in *.
  destruct (colon_index =? -1) eqn:E; [discriminate|].
  apply Z.eqb_neq in E.
  destruct (find_range data ":" pos) as [Hf|[Hr Hg]]; [contradiction|].
  split; [exact Hg|].
  destruct (py_int (slice data pos colon_index)) as [length|]; [|discriminate].
  exists length. split; [reflexivity|].
  destruct (len (slice data (colon_index + 1) (colon_index + 1 + length))
            <? length) eqn:El; [discriminate|].
  injection H as <- <-. apply Z.ltb_ge in El.
  repeat split; [lia|].
  intros Hn.
  pose proof (len_slice data (colon_index + 1) (colon_index + 1 + length)).
  lia.
Qed.

Lemma ends_on_e_bind {A C} data (r : fueled (A * Z)) (k : A * Z -> fueled (C * Z)) :
  (forall x, ends_on_e data (k x)) -> ends_on_e data (fbind r k).
Proof.
  intros Hk a e. destruct r as [[x|]|]; cbn [fbind]; try discriminate.
  apply Hk.
Qed.

Lemma container_ends fuel :
  (forall data pos, ends_on_e data (decode_list fuel (BufBytes data) pos))
  /\ (forall data p contents,
        ends_on_e data (decode_list_loop fuel data p contents))
  /\ (forall data pos,
        ends_on_e data (decode_dictionary fuel (BufBytes data) pos))
  /\ (forall data p result,
        ends_on_e data (decode_dictionary_loop fuel data p result)).
Proof.
  induction fuel as [|fuel (IHl & IHll & IHd & IHdl)].
  { repeat split; unfold ends_on_e; intros; discriminate. }
  repeat split.
  - intros data pos. rewrite decode_list_S.
    intros a e. unfold fbind, lift.
    destruct (getitem data pos) as [c|]; [|discriminate].
    destruct (negb (ord c =? ord "l")); [discriminate|]. apply IHll.
  - intros data p contents. rewrite decode_list_loop_S.
    destruct (p <? len data); [|intros ? ?; discriminate].
    unfold fbind at 1. unfold lift at 1.
    destruct (getitem data p) as [c|] eqn:Hc; [|intros ? ?; discriminate].
    destruct (ord c =? ord "i");
      [apply ends_on_e_bind; intros [? ?]; apply IHll|].
    destruct ((ord "0" <=? ord c) && (ord c <=? ord "9"));
      [apply ends_on_e_bind; intros [? ?]; apply IHll|].
    destruct (ord c =? ord "l");
      [apply ends_on_e_bind; intros [? ?]; apply IHll|].
    destruct (ord c =? ord "d");
      [apply ends_on_e_bind; intros [? ?]; apply IHll|].
    destruct (ord c =? ord "e") eqn:E; [|intros ? ?; discriminate].
    apply ord_eqb_eq in E. subst c. intros a e [= _ <-]. exact Hc.
  - intros data pos. rewrite decode_dictionary_S.
    intros a e. unfold fbind, lift.
    destruct (getitem data pos) as [c|]; [|discriminate].
    destruct (negb (ord c =? ord "d")); [discriminate|]. apply IHdl.
  - intros data p result. rewrite decode_dictionary_loop_S.
    destruct (p <? len data); [|intros ? ?; discriminate].
    unfold fbind at 1. unfold lift at 1.
    destruct (getitem data p) as [c|] eqn:Hc; [|intros ? ?; discriminate].
    destruct (ord c =? ord "e") eqn:E.
    { apply ord_eqb_eq in E. subst c. intros a e [= _ <-]. exact Hc. }
    apply ends_on_e_bind. intros [key e1]. cbv zeta.
    unfold fbind at 1. unfold lift at 1.
    destruct (getitem data (e1 + 1)) as [c'|]; [|intros ? ?; discriminate].
    destruct (ord c' =? ord "i");
      [apply ends_on_e_bind; intros [? ?]; apply IHdl|].
    destruct ((ord "0" <=? ord c') && (ord c' <=? ord "9"));
      [apply ends_on_e_bind; intros [? ?]; apply IHdl|].
    destruct (ord c' =? ord "l");
      [apply ends_on_e_bind; intros [? ?]; apply IHdl|].
    destruct (ord c' =? ord "d");
      [apply ends_on_e_bind; intros [? ?]; apply IHdl|].
    intros ? ?; discriminate.
Qed.

(** [decode_list] and [decode_dictionary] return the index of an [e]. *)
Lemma decode_list_end fuel data pos l e :
  decode_list fuel (BufBytes data) pos = Some (Ok (l, e)) ->
  getitem data e = Ok "e"%char.
Proof. apply (proj1 (container_ends fuel)). Qed.

Lemma decode_dictionary_end fuel data pos d e :
  decode_dictionary fuel (BufBytes data) pos = Some (Ok (d, e)) ->
  getitem data e = Ok "e"%char.
Proof. apply (proj1 (proj2 (proj2 (container_ends fuel)))). Qed.

Lemma decode_string_spam :
  decode_string (BufBytes (B "4:spam")) 0 = Ok (B "spam", 5).
Proof. reflexivity. Qed.

(** C8, as the code has it: on [-1:] the declared length is -1;
    [decode_string] returns the empty payload and the end position 1,
    the index of the byte before the colon it has read (at 2).  Such a
    key is met by [decode] too: in [d-2:abe] the key [-2:] ends "at 1",
    and its last digit is read again, as the length of the value. *)
Theorem decode_string_negative_length :
  decode_string (BufBytes (B "-1:")) 0 = Ok ([], 1)
  /\ find (B "-1:") ":" 0 = 2
  /\ decode 3 (BufBytes (B "d-2:abe")) 0
     = Some (Ok (VDict [(VBytes [], VBytes (B "ab"))])).
Proof. repeat split. Qed.

(** ** The decimal form of an integer *)

(** The digits of a positive number: at least one, no zero in front,
    and they read as the number. *)
Lemma pos_digits p :
  let ds := uint_bytes (Pos.to_uint p) in
  ds <> []
  /\ Forall (fun c => is_digit c = true) ds
  /\ (forall r, ds <> "0"%char :: r)
  /\ scan_digits ds 0 0 false = Some (Z.pos p, List.length ds, []).
Proof.
  cbv zeta.
  pose proof (DecimalPos.Unsigned.to_uint_nonnil p) as Hnil.
  split; [|split; [|split]].
  - intros H. destruct (Pos.to_uint p); try discriminate H. contradiction.
  - apply uint_bytes_digits.
  - intros r H. apply uint_bytes_head_zero in H as [u Hu].
    exact (to_uint_no_leading_zero p u Hu).
  - rewrite scan_uint_bytes, <- of_uint_value, length_uint_bytes.
    unfold Z.of_uint. now rewrite DecimalPos.Unsigned.of_to.
Qed.

(** For an integer proper, [encode_integer] gives [i], the minimal
    decimal form and [e], unless the digits are too many: a minus sign
    exactly when [n] is negative, at least one digit, no zero in front of
    another digit, and never [-0]. *)
Lemma encode_integer_minimal n :
  let ds := str_int (Z.abs n) in
  ds <> []
  /\ Forall (fun c => is_digit c = true) ds
  /\ (forall r, ds = "0"%char :: r -> r = [] /\ n = 0)
  /\ scan_digits ds 0 0 false = Some (Z.abs n, List.length ds, [])
  /\ encode_integer (VInt n)
     = (if len ds <=? max_str_digits
        then Ok (B "i" ++ (if n <? 0 then B "-" else []) ++ ds ++ B "e")
        else Raise ValueError).
Proof.
  cbv zeta. destruct n as [|p|p].
  - split; [discriminate|]. split; [repeat constructor|].
    split; [now intros r [= <-]|]. split; reflexivity.
  - destruct (pos_digits p) as (H1 & H2 & H3 & H4).
    split; [exact H1|]. split; [exact H2|].
    split; [intros r H; now apply H3 in H|]. split; [exact H4|].
    cbn [encode_integer]. unfold py_str.
    rewrite Z.leb_antisym.
    destruct (max_str_digits <? len (str_int (Z.abs (Z.pos p))));
      reflexivity.
  - destruct (pos_digits p) as (H1 & H2 & H3 & H4).
    split; [exact H1|]. split; [exact H2|].
    split; [intros r H; now apply H3 in H|]. split; [exact H4|].
    cbn [encode_integer]. unfold py_str.
    rewrite Z.leb_antisym.
    destruct (max_str_digits <? len (str_int (Z.abs (Z.neg p))));
      reflexivity.
Qed.

(** An item of no supported kind changes nothing in the output of
    [encode_list]. *)
Lemma encode_list_skip pre x post :
  supported_kind x = false ->
  encode_list (VList (pre ++ x :: post)) = encode_list (VList (pre ++ post)).
Proof.
  intros Hx. rewrite !encode_list_items, !filter_app.
  cbn [filter]. now rewrite Hx.
Qed.

(** * Further properties of the codec *)

(** ** Decoding inside a larger buffer *)






(** ** The routines for integers and strings, one after the other *)



(** X4: [decode_string] reads back what [encode_string] writes,
    wherever it stands in a buffer, and returns the index of its last
    byte: the payload of a [bytes] object is the object, whatever bytes
    it holds (colons, digits, [e]); the payload of a [str] is its UTF-8
    encoding. *)
Theorem decode_string_encode_string x e pre suf :
  encode_string x = Ok e ->
  exists s,
    decode_string (BufBytes (pre ++ e ++ suf)) (len pre)
    = Ok (s, len pre + len e - 1)
    /\ match x with
       | VBytes b => s = b
       | VStr t => str_encode t = Ok s
       | _ => False
       end.
Proof.
  intros He.
  assert (H : exists s, e = str_int (len s) ++ B ":" ++ s
                        /\ len (str_int (Z.abs (len s))) <= max_str_digits
                        /\ match x with
                           | VBytes b => s = b
                           | VStr t => str_encode t = Ok s
                           | _ => False
                           end).
  { destruct x; try discriminate He.
    - exists s. apply encode_bytes_Ok in He as [-> Hm]. now split.
    - apply encode_str_Ok in He as (d & Hd & -> & Hm). now exists d. }
  destruct H as (s & -> & Hm & Hx). exists s. split; [|exact Hx].
  replace (pre ++ (str_int (len s) ++ B ":" ++ s) ++ suf)
    with (pre ++ str_int (len s) ++ B ":" ++ s ++ suf)
    by (now rewrite <- !List.app_assoc).
  rewrite decode_string_at, !len_app by exact Hm. change (len (B ":")) with 1.
  do 2 f_equal. lia.
Qed.

Lemma decode_string_encode_string_witness :
  exists s,
    decode_string (BufBytes (B "x" ++ B "5:1:e:e" ++ B "9:")) 1 = Ok (s, 7)
    /\ s = B "1:e:e".
Proof.
  apply (decode_string_encode_string (VBytes (B "1:e:e")) (B "5:1:e:e")
           (B "x") (B "9:")).
  reflexivity.
Defined.

(** ** What the decoder returns *)

Lemma returns_bind {A C} (P : C -> Prop) (r : fueled A)
      (k : A -> fueled (C * Z)) :
  (forall x, r = Some (Ok x) -> returns P (k x)) -> returns P (fbind r k).
Proof.
  intros Hk a e. destruct r as [[x|]|]; cbn [fbind]; try discriminate.
  now apply Hk.
Qed.

Lemma bytes_eqb_sym x y : bytes_eqb x y = bytes_eqb y x.
Proof.
  destruct (bytes_eqb x y) eqn:E1, (bytes_eqb y x) eqn:E2; try reflexivity.
  - apply bytes_eqb_eq in E1. subst y.
    now rewrite (proj2 (bytes_eqb_eq x x) eq_refl) in E2.
  - apply bytes_eqb_eq in E2. subst y.
    now rewrite (proj2 (bytes_eqb_eq x x) eq_refl) in E1.
Qed.

Lemma dict_contains_setitem d key v s :
  dict_contains (dict_setitem d key v) s
  = dict_contains d s || bytes_eqb key s.
Proof.
  induction d as [|[k x] d IH]; cbn [dict_setitem dict_contains].
  - now rewrite orb_false_r.
  - destruct k; cbn [dict_contains]; try exact IH.
    destruct (bytes_eqb s0 key) eqn:E; cbn [dict_contains].
    + apply bytes_eqb_eq in E. subst s0.
      destruct (bytes_eqb key s), (dict_contains d s); reflexivity.
    + rewrite IH. now rewrite orb_assoc.
Qed.

Lemma distinct_keys_setitem d key v :
  distinct_keys d = true -> distinct_keys (dict_setitem d key v) = true.
Proof.
  induction d as [|[k x] d IH]; cbn [dict_setitem distinct_keys];
    [reflexivity|].
  destruct k; try discriminate.
  intros H. apply andb_true_iff in H as [H1 H2].
  destruct (bytes_eqb s key) eqn:E; cbn [distinct_keys].
  - now rewrite H1, H2.
  - rewrite dict_contains_setitem, bytes_eqb_sym, E, orb_false_r, H1.
    now rewrite IH.
Qed.

Lemma bencodable_pairs_setitem d key v :
  forallb bencodable_pair d = true -> bencodable v = true ->
  forallb bencodable_pair (dict_setitem d key v) = true.
Proof.
  intros Hd Hv.
  induction d as [|[k x] d IH]; cbn [dict_setitem forallb].
  - unfold bencodable_pair. cbn [fst snd]. now rewrite Hv.
  - cbn [forallb] in Hd. apply andb_true_iff in Hd as [H1 H2].
    destruct k; try discriminate H1.
    destruct (bytes_eqb s key); cbn [forallb].
    + rewrite H2. unfold bencodable_pair. cbn [fst snd]. now rewrite Hv.
    + now rewrite H1, IH.
Qed.

Lemma decoded_dict_setitem d key v :
  decoded_dict d -> bencodable v = true ->
  decoded_dict (dict_setitem d key v).
Proof.
  intros [H1 H2] Hv. split;
    [now apply bencodable_pairs_setitem | now apply distinct_keys_setitem].
Qed.

Lemma decoded_list_snoc l v :
  decoded_list l -> bencodable v = true -> decoded_list (l ++ [v]).
Proof.
  unfold decoded_list. intros Hl Hv.
  rewrite forallb_app, Hl. cbn [forallb]. now rewrite Hv.
Qed.

Lemma decoded_dict_bencodable d : decoded_dict d -> bencodable (VDict d) = true.
Proof.
  intros [H1 H2].
  change (forallb bencodable_pair d && distinct_keys d = true).
  now rewrite H1, H2.
Qed.

Lemma containers_decoded fuel :
  (forall data pos, returns decoded_list (decode_list fuel (BufBytes data) pos))
  /\ (forall data p contents,
        decoded_list contents ->
        returns decoded_list (decode_list_loop fuel data p contents))
  /\ (forall data pos,
        returns decoded_dict (decode_dictionary fuel (BufBytes data) pos))
  /\ (forall data p result,
        decoded_dict result ->
        returns decoded_dict (decode_dictionary_loop fuel data p result)).
Proof.
  induction fuel as [|fuel (IHl & IHll & IHd & IHdl)].
  { split; [|split; [|split]]; unfold returns; intros; discriminate. }
  assert (Hint : forall n, bencodable (VInt n) = true) by reflexivity.
  assert (Hstr : forall s, bencodable (VBytes s) = true) by reflexivity.
  split; [|split; [|split]].
  - intros data pos. rewrite decode_list_S.
    intros a e. unfold fbind, lift.
    destruct (getitem data pos) as [c|]; [|discriminate].
    destruct (negb (ord c =? ord "l")); [discriminate|].
    now apply IHll.
  - intros data p contents Hc. rewrite decode_list_loop_S.
    destruct (p <? len data); [|intros ? ?; discriminate].
    unfold fbind at 1. unfold lift at 1.
    destruct (getitem data p) as [c|]; [|intros ? ?; discriminate].
    destruct (ord c =? ord "i").
    { apply returns_bind. intros [n e1] _. apply IHll.
      now apply decoded_list_snoc. }
    destruct ((ord "0" <=? ord c) && (ord c <=? ord "9")).
    { apply returns_bind. intros [s e1] _. apply IHll.
      now apply decoded_list_snoc. }
    destruct (ord c =? ord "l").
    { apply returns_bind. intros [l e1] Hl. apply IHll.
      apply decoded_list_snoc; [exact Hc|]. exact (IHl _ _ _ _ Hl). }
    destruct (ord c =? ord "d").
    { apply returns_bind. intros [d e1] Hd. apply IHll.
      apply decoded_list_snoc; [exact Hc|].
      apply decoded_dict_bencodable. exact (IHd _ _ _ _ Hd). }
    destruct (ord c =? ord "e"); [|intros ? ?; discriminate].
    now intros a e [= <- _].
  - intros data pos. rewrite decode_dictionary_S.
    intros a e. unfold fbind, lift.
    destruct (getitem data pos) as [c|]; [|discriminate].
    destruct (negb (ord c =? ord "d")); [discriminate|].
    apply IHdl. split; reflexivity.
  - intros data p result Hr. rewrite decode_dictionary_loop_S.
    destruct (p <? len data); [|intros ? ?; discriminate].
    unfold fbind at 1. unfold lift at 1.
    destruct (getitem data p) as [c|]; [|intros ? ?; discriminate].
    destruct (ord c =? ord "e"); [now intros a e [= <- _]|].
    apply returns_bind. intros [key e1] _. cbv zeta.
    unfold fbind at 1. unfold lift at 1.
    destruct (getitem data (e1 + 1)) as [c'|]; [|intros ? ?; discriminate].
    destruct (ord c' =? ord "i").
    { apply returns_bind. intros [n e2] _. apply IHdl.
      now apply decoded_dict_setitem. }
    destruct ((ord "0" <=? ord c') && (ord c' <=? ord "9")).
    { apply returns_bind. intros [s e2] _. apply IHdl.
      now apply decoded_dict_setitem. }
    destruct (ord c' =? ord "l").
    { apply returns_bind. intros [l e2] Hl. apply IHdl.
      apply decoded_dict_setitem; [exact Hr|]. exact (IHl _ _ _ _ Hl). }
    destruct (ord c' =? ord "d"); [|intros ? ?; discriminate].
    apply returns_bind. intros [d e2] Hd. apply IHdl.
    apply decoded_dict_setitem; [exact Hr|].
    apply decoded_dict_bencodable. exact (IHd _ _ _ _ Hd).
Qed.

Lemma decode_returns_bencodable fuel buf pos v :
  decode fuel buf pos = Some (Ok v) -> v = VNone \/ bencodable v = true.
Proof.
  unfold decode. unfold fbind at 1. unfold lift at 1.
  assert (H : exists r, r = match buf with
                            | BufStr s => str_encode s
                            | BufBytes d => Ok d
                            end) by eauto.
  destruct H as [r Hr]. rewrite <- Hr. clear Hr buf.
  destruct r as [data|]; [|discriminate].
  unfold fbind at 1. unfold lift at 1.
  destruct (getitem data pos) as [c|]; [|discriminate].
  destruct (ord c =? ord "i").
  { unfold fbind, lift.
    destruct (decode_integer (BufBytes data) pos) as [[n e]|]; [|discriminate].
    intros [= <-]. now right. }
  destruct ((ord "0" <=? ord c) && (ord c <=? ord "9")).
  { unfold fbind, lift.
    destruct (decode_string (BufBytes data) pos) as [[s e]|]; [|discriminate].
    intros [= <-]. now right. }
  destruct (ord c =? ord "l").
  { unfold fbind.
    destruct (decode_list fuel (BufBytes data) pos) as [[[l e]|]|] eqn:E;
      try discriminate.
    intros [= <-]. right.
    exact (proj1 (containers_decoded fuel) _ _ _ _ E). }
  destruct (ord c =? ord "d"); [|intros [= <-]; now left].
  unfold fbind.
  destruct (decode_dictionary fuel (BufBytes data) pos) as [[[d e]|]|] eqn:E;
    try discriminate.
  intros [= <-]. right. apply decoded_dict_bencodable.
  exact (proj1 (proj2 (proj2 (containers_decoded fuel))) _ _ _ _ E).
Qed.

(** X5: whatever the buffer, a value [decode] returns is [None] or a
    value of the format all the way down: integers proper, [bytes],
    lists, and dictionaries whose keys are [bytes] and pairwise
    different (of two equal keys in the buffer the decoder keeps one). *)
Theorem decode_result_in_format fuel buf pos v :
  decode fuel buf pos = Some (Ok v) -> v = VNone \/ bencodable v = true.
Proof. apply decode_returns_bencodable. Qed.

Lemma decode_result_in_format_witness :
  VDict [(VBytes (B "a"), VInt 2)] = VNone
  \/ bencodable (VDict [(VBytes (B "a"), VInt 2)]) = true.
Proof.
  apply (decode_result_in_format 4 (BufBytes (B "d1:ai1e1:ai2ee")) 0).
  reflexivity.
Defined.

(** *** What the decoder returns can be printed *)

Lemma len_slice_le data lo hi : len (slice data lo hi) <= len data.
Proof.
  unfold slice, len. rewrite length_firstn, length_skipn. lia.
Qed.

(** A length is far below the limit of [str]. *)
Lemma len_printable {A} (s : list A) :
  len s <= max_size -> len (str_int (Z.abs (len s))) <= max_str_digits.
Proof.
  intros H. pose proof (len_nonneg s).
  transitivity 19; [|discriminate].
  apply digits_within; [|reflexivity].
  rewrite Z.abs_eq by lia. split; [lia|].
  eapply Z.le_lt_trans; [exact H|reflexivity].
Qed.

Lemma decode_integer_printable data pos n e :
  decode_integer (BufBytes data) pos = Ok (n, e) ->
  within_limits (VInt n) = true.
Proof.
  unfold decode_integer. cbn [bind].
  destruct (getitem data pos) as [c|]; [|discriminate]. cbn [bind].
  destruct (negb (ord c =? ord "i")); [discriminate|].
  destruct (find data "e" pos =? -1); [discriminate|].
  destruct (py_int (slice data (pos + 1) (find data "e" pos))) as [z|] eqn:Hz;
    [|discriminate].
  intros [= <- _]. cbn [within_limits]. apply Z.leb_le.
  now apply py_int_printable in Hz.
Qed.

Lemma decode_string_printable data pos s e :
  len data <= max_size ->
  decode_string (BufBytes data) pos = Ok (s, e) ->
  within_limits (VBytes s) = true.
Proof.
  intros Hdata. unfold decode_string. cbn [bind].
  destruct (find data ":" pos =? -1); [discriminate|].
  destruct (py_int (slice data pos (find data ":" pos))) as [z|];
    [|discriminate].
  cbv zeta.
  destruct (len (slice data (find data ":" pos + 1)
                   (find data ":" pos + 1 + z)) <? z); [discriminate|].
  intros [= <- _]. cbn [within_limits]. apply Z.leb_le.
  apply len_printable.
  etransitivity; [apply len_slice_le|exact Hdata].
Qed.

Lemma printable_list_snoc l v :
  printable_list l -> within_limits v = true -> printable_list (l ++ [v]).
Proof.
  unfold printable_list. intros Hl Hv.
  rewrite forallb_app, Hl. cbn [forallb]. now rewrite Hv.
Qed.

Lemma printable_dict_setitem d key v :
  printable_dict d -> within_limits (VBytes key) = true ->
  within_limits v = true -> printable_dict (dict_setitem d key v).
Proof.
  unfold printable_dict. intros Hd Hk Hv.
  induction d as [|[k x] d IH]; cbn [dict_setitem forallb fst snd].
  - now rewrite Hk, Hv.
  - cbn [forallb fst snd] in Hd. apply andb_true_iff in Hd as [H1 H2].
    apply andb_true_iff in H1 as [H1 H3].
    destruct k; cbn [forallb fst snd];
      try (rewrite H1, H3, (IH H2); reflexivity).
    destruct (bytes_eqb s key); cbn [forallb fst snd].
    + now rewrite H1, Hv, H2.
    + now rewrite H1, H3, (IH H2).
Qed.

Lemma lift_Ok {A} (r : outcome A) a : lift r = Some (Ok a) -> r = Ok a.
Proof. unfold lift. now intros [= ->]. Qed.

Lemma containers_printable data fuel :
  len data <= max_size ->
  (forall pos, returns printable_list (decode_list fuel (BufBytes data) pos))
  /\ (forall p contents,
        printable_list contents ->
        returns printable_list (decode_list_loop fuel data p contents))
  /\ (forall pos,
        returns printable_dict (decode_dictionary fuel (BufBytes data) pos))
  /\ (forall p result,
        printable_dict result ->
        returns printable_dict (decode_dictionary_loop fuel data p result)).
Proof.
  intros Hdata.
  induction fuel as [|fuel (IHl & IHll & IHd & IHdl)].
  { split; [|split; [|split]]; unfold returns; intros; discriminate. }
  split; [|split; [|split]].
  - intros pos. rewrite decode_list_S.
    intros a e. unfold fbind, lift.
    destruct (getitem data pos) as [c|]; [|discriminate].
    destruct (negb (ord c =? ord "l")); [discriminate|].
    now apply IHll.
  - intros p contents Hc. rewrite decode_list_loop_S.
    destruct (p <? len data); [|intros ? ?; discriminate].
    unfold fbind at 1. unfold lift at 1.
    destruct (getitem data p) as [c|]; [|intros ? ?; discriminate].
    destruct (ord c =? ord "i").
    { apply returns_bind. intros [n e1] Hn. apply lift_Ok in Hn.
      apply IHll, printable_list_snoc; [exact Hc|].
      exact (decode_integer_printable _ _ _ _ Hn). }
    destruct ((ord "0" <=? ord c) && (ord c <=? ord "9")).
    { apply returns_bind. intros [s e1] Hs. apply lift_Ok in Hs.
      apply IHll, printable_list_snoc; [exact Hc|].
      exact (decode_string_printable _ _ _ _ Hdata Hs). }
    destruct (ord c =? ord "l").
    { apply returns_bind. intros [l e1] Hl. apply IHll.
      apply printable_list_snoc; [exact Hc|]. exact (IHl _ _ _ Hl). }
    destruct (ord c =? ord "d").
    { apply returns_bind. intros [d e1] Hd. apply IHll.
      apply printable_list_snoc; [exact Hc|]. exact (IHd _ _ _ Hd). }
    destruct (ord c =? ord "e"); [|intros ? ?; discriminate].
    now intros a e [= <- _].
  - intros pos. rewrite decode_dictionary_S.
    intros a e. unfold fbind, lift.
    destruct (getitem data pos) as [c|]; [|discriminate].
    destruct (negb (ord c =? ord "d")); [discriminate|].
    apply IHdl. reflexivity.
  - intros p result Hr. rewrite decode_dictionary_loop_S.
    destruct (p <? len data); [|intros ? ?; discriminate].
    unfold fbind at 1. unfold lift at 1.
    destruct (getitem data p) as [c|]; [|intros ? ?; discriminate].
    destruct (ord c =? ord "e"); [now intros a e [= <- _]|].
    apply returns_bind. intros [key e1] Hkey. apply lift_Ok in Hkey.
    apply (decode_string_printable _ _ _ _ Hdata) in Hkey.
    cbv zeta.
    unfold fbind at 1. unfold lift at 1.
    destruct (getitem data (e1 + 1)) as [c'|]; [|intros ? ?; discriminate].
    destruct (ord c' =? ord "i").
    { apply returns_bind. intros [n e2] Hn. apply lift_Ok in Hn.
      apply IHdl, printable_dict_setitem; [exact Hr|exact Hkey|].
      exact (decode_integer_printable _ _ _ _ Hn). }
    destruct ((ord "0" <=? ord c') && (ord c' <=? ord "9")).
    { apply returns_bind. intros [s e2] Hs. apply lift_Ok in Hs.
      apply IHdl, printable_dict_setitem; [exact Hr|exact Hkey|].
      exact (decode_string_printable _ _ _ _ Hdata Hs). }
    destruct (ord c' =? ord "l").
    { apply returns_bind. intros [l e2] Hl. apply IHdl.
      apply printable_dict_setitem; [exact Hr|exact Hkey|].
      exact (IHl _ _ _ Hl). }
    destruct (ord c' =? ord "d"); [|intros ? ?; discriminate].
    apply returns_bind. intros [d e2] Hd. apply IHdl.
    apply printable_dict_setitem; [exact Hr|exact Hkey|].
    exact (IHd _ _ _ Hd).
Qed.

Lemma decode_returns_printable fuel buf data pos v :
  buffer_bytes buf = Ok data -> len data <= max_size ->
  decode fuel buf pos = Some (Ok v) -> within_limits v = true.
Proof.
  intros Hbuf Hdata. unfold decode.
  change (match buf with
          | BufStr s => str_encode s
          | BufBytes d => Ok d
          end) with (buffer_bytes buf).
  rewrite Hbuf. unfold fbind at 1. unfold lift at 1.
  unfold fbind at 1. unfold lift at 1.
  destruct (getitem data pos) as [c|]; [|discriminate].
  destruct (containers_printable data fuel Hdata) as (Hl & _ & Hd & _).
  destruct (ord c =? ord "i").
  { unfold fbind, lift.
    destruct (decode_integer (BufBytes data) pos) as [[n e]|] eqn:E;
      [|discriminate].
    intros [= <-]. exact (decode_integer_printable _ _ _ _ E). }
  destruct ((ord "0" <=? ord c) && (ord c <=? ord "9")).
  { unfold fbind, lift.
    destruct (decode_string (BufBytes data) pos) as [[s e]|] eqn:E;
      [|discriminate].
    intros [= <-]. exact (decode_string_printable _ _ _ _ Hdata E). }
  destruct (ord c =? ord "l").
  { unfold fbind.
    destruct (decode_list fuel (BufBytes data) pos) as [[[l e]|]|] eqn:E;
      try discriminate.
    intros [= <-]. exact (Hl _ _ _ E). }
  destruct (ord c =? ord "d"); [|intros [= <-]; reflexivity].
  unfold fbind.
  destruct (decode_dictionary fuel (BufBytes data) pos) as [[[d e]|]|] eqn:E;
    try discriminate.
  intros [= <-]. exact (Hd _ _ _ E).
Qed.

(** X6: what [decode] returns, unless it is [None], can be encoded,
    and decoding that encoding gives the same value again, also when the
    buffer it came from is not what the encoder writes (leading zeros,
    repeated keys, bytes after the value).  The buffer is a Python
    object: its length is at most [max_size]. *)
Theorem decode_encode_decode fuel buf data pos v :
  decode fuel buf pos = Some (Ok v) -> v <> VNone ->
  buffer_bytes buf = Ok data -> len data <= max_size ->
  exists e, encode v = Ok e
            /\ decode (size v) (BufBytes e) 0 = Some (Ok v).
Proof.
  intros Hd Hn Hbuf Hdata.
  destruct (decode_returns_bencodable _ _ _ _ Hd) as [->|Hb]; [contradiction|].
  pose proof (decode_returns_printable _ _ _ _ _ Hbuf Hdata Hd) as Hw.
  destruct (encode_total (size v) v (le_n _) Hb Hw) as [e He].
  exists e. split; [exact He|]. now apply decode_encode.
Qed.

Lemma decode_encode_decode_witness :
  exists e, encode (VList [VInt 7]) = Ok e
            /\ decode (size (VList [VInt 7])) (BufBytes e) 0
               = Some (Ok (VList [VInt 7])).
Proof.
  apply (decode_encode_decode 3 (BufBytes (B "li007eexyz")) (B "li007eexyz") 0);
    [reflexivity | discriminate | reflexivity | discriminate].
Defined.

(** ** Lists with items the encoder passes over *)

Lemma filter_idem {A} (f : A -> bool) l : filter f (filter f l) = filter f l.
Proof.
  induction l as [|x l IH]; [reflexivity|].
  cbn [filter]. destruct (f x) eqn:E; [|exact IH].
  cbn [filter]. now rewrite E, IH.
Qed.

(** X7: a round trip through [encode] and [decode] loses the items
    of a list that are of none of the four kinds: when the other items
    are values of the format and the list is encoded, its encoding
    decodes to the list of those other items. *)
Theorem encode_decode_drops_items l e fuel :
  forallb bencodable (filter supported_kind l) = true ->
  encode (VList l) = Ok e ->
  (size (VList (filter supported_kind l)) <= fuel)%nat ->
  decode fuel (BufBytes e) 0 = Some (Ok (VList (filter supported_kind l))).
Proof.
  intros Hb He Hs. apply decode_encode; [exact Hb| |exact Hs].
  unfold encode in *. cbn [is_string is_int is_list] in *.
  rewrite encode_list_items in *. now rewrite filter_idem.
Qed.

Lemma encode_decode_drops_items_witness :
  decode 4 (BufBytes (B "li1e1:ae")) 0
  = Some (Ok (VList [VInt 1; VBytes (B "a")])).
Proof.
  apply (encode_decode_drops_items
           [VInt 1; VNone; VOther "float"; VBytes (B "a")] (B "li1e1:ae") 4);
    [reflexivity | reflexivity | cbn; lia].
Defined.

(** ** The encoding of a dictionary *)

(** X8: [encode_dictionary] writes [d], then for each item in the
    order of the dictionary the encoding of its key and the encoding of
    its value, then [e]; unlike [encode_list] it raises for what it
    cannot encode: [EncodeDictionaryError] at the first item whose key
    is not a [str] or [bytes], or whose value is of none of the four
    kinds. *)
Theorem encode_dictionary_items d :
  encode_dictionary (VDict d) =
  (body <- encode_pairs d ;; Ok (B "d" ++ body ++ B "e")).
Proof. rewrite encode_dictionary_VDict. apply encode_dictionary_loop_pairs. Qed.

(** ** The exceptions of the encoder *)












(** ** Strings cut short *)

Lemma slice_to_end pre s hi :
  len pre + len s <= hi -> slice (pre ++ s) (len pre) hi = s.
Proof.
  intros H. unfold slice. rewrite len_app.
  pose proof (len_nonneg pre). pose proof (len_nonneg s).
  rewrite (adjust_bound_inside _ (len pre)) by lia.
  unfold adjust_bound.
  destruct (hi <? 0) eqn:E1; [lia|]. rewrite E1.
  destruct (len pre + len s <? hi) eqn:E2.
  - replace (len pre + len s - len pre) with (len s) by lia.
    unfold len. rewrite !Nat2Z.id, skipn_app, skipn_all, Nat.sub_diag.
    cbn [skipn List.app]. apply firstn_all.
  - apply Z.ltb_ge in E2. replace hi with (len pre + len s) by lia.
    replace (len pre + len s - len pre) with (len s) by lia.
    unfold len. rewrite !Nat2Z.id, skipn_app, skipn_all, Nat.sub_diag.
    cbn [skipn List.app]. apply firstn_all.
Qed.

(** X10: a string whose declared length is more than the bytes left
    in the buffer raises [DecodeStringError]. *)
Theorem decode_string_truncated pre n payload :
  len payload < n ->
  decode_string (BufBytes (pre ++ str_int n ++ B ":" ++ payload)) (len pre)
  = Raise DecodeStringError.
Proof.
  intros Hn. change (B ":") with [":"%char]. cbn [List.app].
  unfold decode_string. cbn [bind].
  pose proof (len_nonneg pre). pose proof (len_nonneg (str_int n)).
  pose proof (len_nonneg payload).
  rewrite find_app by (now apply str_int_without).
  destruct (len pre + len (str_int n) =? -1) eqn:E; [lia|].
  replace (pre ++ str_int n ++ ":"%char :: payload)
    with (pre ++ str_int n ++ (":"%char :: payload)) at 1 by reflexivity.
  rewrite slice_app, py_int_text.
  destruct (max_str_digits <? len (str_int (Z.abs n))); [reflexivity|].
  replace (pre ++ str_int n ++ ":"%char :: payload)
    with ((pre ++ str_int n ++ [":"%char]) ++ payload)
    by (now rewrite <- !List.app_assoc).
  replace (len pre + len (str_int n) + 1)
    with (len (pre ++ str_int n ++ [":"%char]))
    by (rewrite !len_app; change (len [":"%char]) with 1; lia).
  rewrite slice_to_end by lia.
  destruct (len payload <? n) eqn:E2; [reflexivity|].
  apply Z.ltb_ge in E2. lia.
Qed.

Lemma decode_string_truncated_witness :
  decode_string (BufBytes (B "l" ++ str_int 3 ++ B ":" ++ B "ab")) 1
  = Raise DecodeStringError.
Proof.
  apply (decode_string_truncated (B "l") 3 (B "ab")). reflexivity.
Defined.

(** ** Integer literals with zeros in front *)

Lemma scan_zeros k s :
  forall nd, scan_digits (repeat "0"%char k ++ s) 0 nd false
             = scan_digits s 0 (k + nd) false.
Proof.
  induction k as [|k IH]; intros nd; [reflexivity|].
  cbn [repeat List.app scan_digits].
  change (is_digit "0") with true. cbv iota.
  change (10 * 0 + (ord "0" - ord "0")) with 0.
  rewrite IH. f_equal. lia.
Qed.

Lemma py_int_zeros k n :
  0 <= n ->
  py_int (repeat "0"%char k ++ str_int n)
  = (if Z.of_nat k + len (str_int n) <=? max_str_digits
     then Some n else None)
  /\ py_int ("-"%char :: repeat "0"%char k ++ str_int n)
     = (if Z.of_nat k + len (str_int n) <=? max_str_digits
        then Some (- n) else None).
Proof.
  intros Hn.
  assert (H : exists u, str_int n = uint_bytes u /\ u <> Nil /\ Z.of_uint u = n).
  { destruct n as [|p|p]; [| |lia].
    - exists (D0 Nil). split; [reflexivity|]. split; [discriminate|reflexivity].
    - exists (Pos.to_uint p). split; [reflexivity|].
      split; [apply DecimalPos.Unsigned.to_uint_nonnil|].
      exact (DecimalZ.of_to (Z.pos p)). }
  destruct H as (u & -> & Hu & <-).
  pose proof (scan_zeros k (uint_bytes u) 0) as Hs.
  rewrite scan_uint_bytes, <- of_uint_value in Hs.
  assert (Hd : Forall (fun c => is_digit c = true)
                      (repeat "0"%char k ++ uint_bytes u)).
  { apply Forall_app. split; [|apply uint_bytes_digits].
    clear. induction k; constructor; auto. }
  destruct (nb_digits u) as [|m] eqn:Hm.
  { destruct u; try discriminate Hm. contradiction. }
  destruct (repeat "0"%char k ++ uint_bytes u) as [|c s] eqn:Hl.
  { apply app_eq_nil in Hl as [_ Hl].
    destruct u; try discriminate Hl. contradiction. }
  replace (k + 0 + S m)%nat with (S (k + m)) in Hs by lia.
  destruct (py_int_digits c s _ _ Hd Hs) as [-> ->].
  rewrite Z.leb_antisym, len_uint_bytes, Hm.
  replace (Z.of_nat k + Z.of_nat (S m)) with (Z.of_nat (S (k + m))) by lia.
  now destruct (max_str_digits <? Z.of_nat (S (k + m))).
Qed.

(** X11: [decode_integer] accepts zeros in front of the digits of an
    integer literal, also after a minus sign, and returns the integer
    the digits denote: different buffers decode to the same integer.
    The zeros count as digits: when zeros and digits together are more
    than [max_str_digits], [decode_integer] raises
    [DecodeIntegerError]. *)
Theorem decode_integer_leading_zeros k n pre suf :
  0 <= n ->
  decode_integer
    (BufBytes (pre ++ B "i" ++ repeat "0"%char k ++ str_int n ++ B "e" ++ suf))
    (len pre)
  = (if Z.of_nat k + len (str_int n) <=? max_str_digits
     then Ok (n, len pre + 1 + Z.of_nat k + len (str_int n))
     else Raise DecodeIntegerError)
  /\ decode_integer
       (BufBytes (pre ++ B "i-" ++ repeat "0"%char k ++ str_int n ++ B "e" ++ suf))
       (len pre)
     = (if Z.of_nat k + len (str_int n) <=? max_str_digits
        then Ok (- n, len pre + 2 + Z.of_nat k + len (str_int n))
        else Raise DecodeIntegerError).
Proof.
  intros Hn.
  destruct (py_int_zeros k n Hn) as [Hp Hm].
  pose proof (len_nonneg pre). pose proof (len_nonneg (str_int n)).
  assert (Hz : Forall (fun c => Ascii.eqb c "e" = false) (repeat "0"%char k)).
  { clear. induction k; constructor; auto. }
  assert (Hlen : len (repeat "0"%char k) = Z.of_nat k).
  { unfold len. now rewrite repeat_length. }
  split.
  - change (B "i") with ["i"%char]. change (B "e") with ["e"%char].
    cbn [List.app]. unfold decode_integer. cbn [bind].
    rewrite getitem_app. cbn [bind].
    change (negb (ord "i" =? ord "i")) with false. cbv iota.
    replace (pre ++ "i"%char :: repeat "0"%char k ++ str_int n ++ "e"%char :: suf)
      with (pre ++ ("i"%char :: repeat "0"%char k ++ str_int n)
              ++ "e"%char :: suf)
      by (cbn [List.app]; now rewrite <- !List.app_assoc).
    rewrite find_app.
    2:{ constructor; [reflexivity|]. apply Forall_app. split; [exact Hz|].
        now apply str_int_without. }
    rewrite len_cons, len_app, Hlen.
    destruct (len pre + (1 + (Z.of_nat k + len (str_int n))) =? -1) eqn:E;
      [lia|].
    replace (pre ++ ("i"%char :: repeat "0"%char k ++ str_int n)
               ++ "e"%char :: suf)
      with ((pre ++ ["i"%char]) ++ (repeat "0"%char k ++ str_int n)
              ++ "e"%char :: suf)
      by (cbn [List.app]; now rewrite <- !List.app_assoc).
    replace (len pre + 1) with (len (pre ++ ["i"%char]))
      by (rewrite len_app; reflexivity).
    replace (len pre + (1 + (Z.of_nat k + len (str_int n))))
      with (len (pre ++ ["i"%char]) + len (repeat "0"%char k ++ str_int n))
      by (rewrite !len_app, Hlen; change (len ["i"%char]) with 1; lia).
    rewrite slice_app, Hp.
    destruct (Z.of_nat k + len (str_int n) <=? max_str_digits);
      [|reflexivity].
    do 2 f_equal.
    rewrite !len_app, Hlen. change (len ["i"%char]) with 1. lia.
  - change (B "i-") with ["i"%char; "-"%char]. change (B "e") with ["e"%char].
    cbn [List.app]. unfold decode_integer. cbn [bind].
    rewrite getitem_app. cbn [bind].
    change (negb (ord "i" =? ord "i")) with false. cbv iota.
    replace (pre ++ "i"%char :: "-"%char
                 :: repeat "0"%char k ++ str_int n ++ "e"%char :: suf)
      with (pre ++ ("i"%char :: "-"%char :: repeat "0"%char k ++ str_int n)
              ++ "e"%char :: suf)
      by (cbn [List.app]; now rewrite <- !List.app_assoc).
    rewrite find_app.
    2:{ constructor; [reflexivity|]. constructor; [reflexivity|].
        apply Forall_app. split; [exact Hz|]. now apply str_int_without. }
    rewrite !len_cons, len_app, Hlen.
    destruct (len pre + (1 + (1 + (Z.of_nat k + len (str_int n)))) =? -1)
      eqn:E; [lia|].
    replace (pre ++ ("i"%char :: "-"%char :: repeat "0"%char k ++ str_int n)
               ++ "e"%char :: suf)
      with ((pre ++ ["i"%char])
              ++ ("-"%char :: repeat "0"%char k ++ str_int n)
              ++ "e"%char :: suf)
      by (cbn [List.app]; now rewrite <- !List.app_assoc).
    replace (len pre + 1) with (len (pre ++ ["i"%char]))
      by (rewrite len_app; reflexivity).
    replace (len pre + (1 + (1 + (Z.of_nat k + len (str_int n)))))
      with (len (pre ++ ["i"%char])
            + len ("-"%char :: repeat "0"%char k ++ str_int n))
      by (rewrite ?len_app, ?len_cons, ?len_app, Hlen;
          change (len (@nil ascii)) with 0; lia).
    rewrite slice_app, Hm.
    destruct (Z.of_nat k + len (str_int n) <=? max_str_digits);
      [|reflexivity].
    do 2 f_equal.
    rewrite ?len_app, ?len_cons, ?len_app, Hlen.
    change (len (@nil ascii)) with 0. lia.
Qed.

Lemma decode_integer_leading_zeros_witness :
  decode_integer (BufBytes (B "" ++ B "i" ++ repeat "0"%char 3 ++ str_int 42
                              ++ B "e" ++ B "")) 0
  = Ok (42, 0 + 1 + Z.of_nat 3 + len (str_int 42))
  /\ decode_integer (BufBytes (B "" ++ B "i-" ++ repeat "0"%char 3 ++ str_int 42
                                 ++ B "e" ++ B "")) 0
     = Ok (- 42, 0 + 2 + Z.of_nat 3 + len (str_int 42)).
Proof.
  apply (decode_integer_leading_zeros 3 42 (B "") (B "")). lia.
Defined.

(** ** End positions of successful calls *)

Lemma find_from_ge c l : forall i, find_from c l i = -1 \/ i <= find_from c l i.
Proof.
  induction l as [|x l IH]; intros i; cbn [find_from]; [now left|].
  destruct (Ascii.eqb x c); [right; lia|].
  destruct (IH (i + 1)) as [H|H]; [now left|right; lia].
Qed.

(** [data.find(c, start)] finds nothing before a start that is not
    negative. *)
Lemma find_ge data c start :
  0 <= start -> find data c start = -1 \/ start <= find data c start.
Proof.
  intros Hs. unfold find.
  destruct (start <? 0) eqn:E; [apply Z.ltb_lt in E; lia|].
  destruct (len data <? start); [now left|]. apply find_from_ge.
Qed.

(** X12: when [decode_integer] returns [(n, e)], [e] is the index
    of the first [e] byte at or after the start, [n] is what [int] makes
    of the bytes between the start and [e], and, for a start that is
    not negative, [e] lies after the start. *)
Theorem decode_integer_returns data pos n e :
  decode_integer (BufBytes data) pos = Ok (n, e) ->
  getitem data pos = Ok "i"%char
  /\ e = find data "e" pos
  /\ getitem data e = Ok "e"%char
  /\ py_int (slice data (pos + 1) e) = Some n
  /\ 0 <= e < len data
  /\ (0 <= pos -> pos < e).
Proof.
  unfold decode_integer. cbn [bind].
  destruct (getitem data pos) as [c|] eqn:Hc; cbn [bind]; [|discriminate].
  destruct (ord c =? ord "i") eqn:Hi; cbn [negb]; [|discriminate].
  apply ord_eqb_eq in Hi. subst c.
  destruct (find data "e" pos =? -1) eqn:E; [discriminate|].
  destruct (py_int _) as [m|] eqn:Hm; [|discriminate].
  intros [= <- <-]. apply Z.eqb_neq in E.
  destruct (find_range data "e" pos) as [H|[H1 H2]]; [contradiction|].
  repeat split; try assumption; try lia.
  intros Hp. destruct (find_ge data "e" pos Hp) as [H|H]; [contradiction|].
  destruct (Z.eq_dec (find data "e" pos) pos) as [Heq|]; [|lia].
  rewrite Heq in H2. rewrite Hc in H2. discriminate H2.
Qed.

Lemma decode_integer_returns_witness :
  getitem (B "xi-5ee") 1 = Ok "i"%char
  /\ 4 = find (B "xi-5ee") "e" 1
  /\ getitem (B "xi-5ee") 4 = Ok "e"%char
  /\ py_int (slice (B "xi-5ee") (1 + 1) 4) = Some (-5)
  /\ 0 <= 4 < len (B "xi-5ee")
  /\ (0 <= 1 -> 1 < 4).
Proof.
  apply (decode_integer_returns (B "xi-5ee") 1 (-5) 4). reflexivity.
Defined.

(** X13: when [decode_string] returns [(s, e)], there is a colon at
    the first index [c] at or after the start that holds one, the bytes
    before it are read by [int] as the length, and [e] is [c] plus that
    length; when the length is not negative, [s] has exactly that many
    bytes, so that [e] is the index of the last byte of the payload, or
    of the colon when the payload is empty. *)
Theorem decode_string_returns data pos s e :
  decode_string (BufBytes data) pos = Ok (s, e) ->
  let colon_index := find data ":" pos in
  getitem data colon_index = Ok ":"%char
  /\ exists length,
       py_int (slice data pos colon_index) = Some length
       /\ s = slice data (colon_index + 1) (colon_index + 1 + length)
       /\ e = colon_index + length
       /\ (0 <= length -> len s = length).
Proof. apply decode_string_end. Qed.

Lemma decode_string_returns_witness :
  let colon_index := find (B "l0:e") ":" 1 in
  getitem (B "l0:e") colon_index = Ok ":"%char
  /\ exists length,
       py_int (slice (B "l0:e") 1 colon_index) = Some length
       /\ [] = slice (B "l0:e") (colon_index + 1) (colon_index + 1 + length)
       /\ 2 = colon_index + length
       /\ (0 <= length -> len (@nil ascii) = length).
Proof.
  apply (decode_string_returns (B "l0:e") 1 [] 2). reflexivity.
Defined.

(** X14: when [decode_list] or [decode_dictionary] returns, the end
    position it returns is the index of an [e] byte of the buffer. *)
Theorem containers_return_on_e fuel data pos l d e :
  decode_list fuel (BufBytes data) pos = Some (Ok (l, e))
  \/ decode_dictionary fuel (BufBytes data) pos = Some (Ok (d, e)) ->
  getitem data e = Ok "e"%char.
Proof.
  intros [H|H].
  - exact (proj1 (container_ends fuel) _ _ _ _ H).
  - exact (proj1 (proj2 (proj2 (container_ends fuel))) _ _ _ _ H).
Qed.

Lemma containers_return_on_e_witness :
  getitem (B "ld1:ai1eee") 8 = Ok "e"%char.
Proof.
  apply (containers_return_on_e 5 (B "ld1:ai1eee") 1 []
           [(VBytes (B "a"), VInt 1)] 8).
  right. reflexivity.
Defined.

(** ** Positions outside the buffer *)

Lemma getitem_outside data pos :
  len data <= pos \/ pos < - len data -> getitem data pos = Raise IndexError.
Proof.
  intros H. unfold getitem. pose proof (len_nonneg data).
  destruct (pos <? 0) eqn:E1.
  - apply Z.ltb_lt in E1.
    destruct (pos + len data <? 0) eqn:E2; [reflexivity|].
    apply Z.ltb_ge in E2. lia.
  - apply Z.ltb_ge in E1. rewrite (proj2 (Z.ltb_ge pos 0) E1). cbn [orb].
    destruct (len data <=? pos) eqn:E2; [reflexivity|].
    apply Z.leb_gt in E2. lia.
Qed.



(** ** Text *)

Lemma decode_encoded_bytes fuel s :
  len (str_int (Z.abs (len s))) <= max_str_digits ->
  decode fuel (BufBytes (str_int (len s) ++ B ":" ++ s)) 0
  = Some (Ok (VBytes s)).
Proof.
  intros Hm.
  destruct (str_int_nonneg_head (len s) (len_nonneg s)) as (c & r & Hh & Hc).
  pose proof (decode_string_at s [] [] Hm) as Hd.
  cbn [List.app] in Hd. rewrite List.app_nil_r in Hd.
  change (len []) with 0 in Hd.
  rewrite (decode_dispatch fuel _ 0
             (Some (Ok (VBytes s, 0 + len (str_int (len s)) + len s)))).
  - reflexivity.
  - rewrite (dispatch_string _ _ _ c); [|rewrite Hh; reflexivity|exact Hc].
    now rewrite Hd.
Qed.

(** X16: a [str] does not come back from a round trip: its encoding
    decodes, with any fuel, to the [bytes] of its UTF-8 encoding. *)
Theorem decode_encode_text t e fuel :
  encode (VStr t) = Ok e ->
  exists s, str_encode t = Ok s
            /\ decode fuel (BufBytes e) 0 = Some (Ok (VBytes s)).
Proof.
  intros He. change (encode_string (VStr t) = Ok e) in He.
  apply encode_str_Ok in He as (s & Hs & -> & Hm).
  exists s. split; [exact Hs|]. now apply decode_encoded_bytes.
Qed.

Lemma decode_encode_text_witness :
  exists s, str_encode [233%N; 8364%N] = Ok s
            /\ decode 0 (BufBytes (B "5:" ++ [ascii_of_N 195; ascii_of_N 169;
                                            ascii_of_N 226; ascii_of_N 130;
                                            ascii_of_N 172])) 0
               = Some (Ok (VBytes s)).
Proof.
  apply (decode_encode_text [233%N; 8364%N]). reflexivity.
Defined.

(** ** Dictionaries with repeated keys *)

Lemma pairs_assigned d :
  forall fuel body data pre suf result,
    forallb bencodable_pair d = true ->
    encode_pairs d = Ok body ->
    (1 + pairs_size d <= fuel)%nat ->
    data = pre ++ body ++ B "e" ++ suf ->
    decode_dictionary_loop fuel data (len pre) result =
    Some (Ok (assign_all d result, len pre + len body)).
Proof.
  induction d as [|[key x] d IH];
    intros fuel body data pre suf result Hb He Hs ->;
    (destruct fuel as [|fuel]; [lia|]);
    change (B "e") with ["e"%char]; cbn [List.app].
  - apply Ok_inj in He. subst body. cbn [List.app].
    rewrite decode_dictionary_loop_S, inside, getitem_app.
    change (len []) with 0. rewrite Z.add_0_r. reflexivity.
  - cbn [forallb] in Hb. apply andb_true_iff in Hb as [Hx Hd].
    unfold bencodable_pair in Hx. cbn [fst snd] in Hx.
    destruct key as [| |s| | | | |]; try discriminate Hx.
    cbn [encode_pairs is_string] in He.
    destruct (encode_string (VBytes s)) as [k0|] eqn:Hk0; [|discriminate He].
    apply encode_bytes_Ok in Hk0 as [-> Hm].
    cbn [bind] in He.
    rewrite (bencodable_supported_kind x Hx) in He.
    destruct (encode x) as [xe|] eqn:Hxe; [|discriminate He].
    destruct (encode_pairs d) as [r|] eqn:Hr; [|discriminate He].
    cbn [bind] in He. apply Ok_inj in He. subst body.
    unfold pairs_size in Hs. cbn [fold_right snd] in Hs.
    fold (pairs_size d) in Hs.
    pose proof (size_pos x).
    destruct (decode_encoded fuel) as [Hv _].
    set (k := str_int (len s) ++ B ":" ++ s).
    destruct (str_int_nonneg_head (len s) (len_nonneg s)) as (c & t & Hh & Hc).
    assert (Hdata : pre ++ (k ++ xe ++ r) ++ "e"%char :: suf
                    = pre ++ str_int (len s) ++ B ":" ++ s
                        ++ (xe ++ r ++ "e"%char :: suf)).
    { unfold k. now rewrite <- !List.app_assoc. }
    assert (Hlen : len pre + len (str_int (len s)) + len s + 1 = len (pre ++ k)).
    { unfold k. rewrite !len_app. change (len (B ":")) with 1. lia. }
    rewrite (decode_dictionary_loop_step fuel _ _ _ c s
               (len pre + len (str_int (len s)) + len s)
               (Some (Ok (x, len (pre ++ k) + len xe - 1)))).
    + cbn [fbind].
      replace (len (pre ++ k) + len xe - 1 + 1) with (len ((pre ++ k) ++ xe))
        by (rewrite !len_app; lia).
      rewrite (IH fuel r _ ((pre ++ k) ++ xe) suf (dict_setitem result s x));
        trivial.
      * cbn [assign_all fold_left fst snd].
        rewrite <- List.app_assoc, !len_app. do 3 f_equal. lia.
      * lia.
      * change (B "e") with ["e"%char]. cbn [List.app].
        now rewrite <- !List.app_assoc.
    + apply inside_mid.
    + rewrite Hdata, Hh. cbn [List.app]. apply getitem_app.
    + now apply digit_is_not.
    + rewrite Hdata. now apply decode_string_at.
    + rewrite Hlen.
      apply (Hv x xe _ (pre ++ k) (r ++ "e"%char :: suf)); trivial; [lia|].
      now rewrite <- !List.app_assoc.
Qed.

(** X17: a dictionary in the buffer may repeat a key.  The buffer
    made of [d], the encodings of any keys and values one after the
    other, and [e] decodes to the dictionary built by assigning the
    items in order: a repeated key keeps the place of its first
    occurrence and the value of its last. *)
Theorem decode_repeated_keys d body fuel :
  forallb bencodable_pair d = true ->
  encode_pairs d = Ok body ->
  (2 + pairs_size d <= fuel)%nat ->
  decode fuel (BufBytes (B "d" ++ body ++ B "e")) 0
  = Some (Ok (VDict (assign_all d []))).
Proof.
  intros Hb He Hs. destruct fuel as [|fuel]; [lia|].
  rewrite (decode_dispatch _ _ _
             (Some (Ok (VDict (assign_all d []), 0 + 1 + len body)))).
  - reflexivity.
  - rewrite dispatch_dictionary by reflexivity.
    rewrite decode_dictionary_S.
    change (getitem (B "d" ++ body ++ B "e") 0) with (Ok "d"%char).
    cbn [fbind lift]. change (negb (ord "d" =? ord "d")) with false. cbv iota.
    rewrite (pairs_assigned d fuel body _ (B "d") [] []); trivial. lia.
Qed.

Lemma decode_repeated_keys_witness :
  decode 8 (BufBytes (B "d" ++ B "1:ai1e1:bi2e1:ai3e" ++ B "e")) 0
  = Some (Ok (VDict [(VBytes (B "a"), VInt 3); (VBytes (B "b"), VInt 2)])).
Proof.
  apply (decode_repeated_keys [(VBytes (B "a"), VInt 1);
                               (VBytes (B "b"), VInt 2);
                               (VBytes (B "a"), VInt 3)]
           (B "1:ai1e1:bi2e1:ai3e") 8);
    [reflexivity | reflexivity | cbn; lia].
Defined.

(** ** Buffers on which the decoder always returns *)

Lemma scan_digits_nonneg s :
  forall acc nd b v nd' rest,
    0 <= acc -> scan_digits s acc nd b = Some (v, nd', rest) -> 0 <= v.
Proof.
  induction s as [|c s IH]; intros acc nd b v nd' rest Ha; cbn [scan_digits].
  - destruct b; [discriminate|]. now intros [= <- _ _].
  - destruct (is_digit c) eqn:Hc.
    + apply IH. unfold is_digit in Hc. apply andb_true_iff in Hc as [H1 _].
      apply Z.leb_le in H1. lia.
    + destruct (Ascii.eqb c "_").
      * destruct b; [discriminate|]. now apply IH.
      * destruct b; [discriminate|]. now intros [= <- _ _].
Qed.

Lemma minus_free_skip_space s : minus_free s -> minus_free (skip_space s).
Proof.
  induction 1 as [|c s Hc Hs IH]; cbn [skip_space]; [constructor|].
  destruct (is_space c); [exact IH|]. now constructor.
Qed.

(** Without a minus sign, [int] gives no negative integer. *)
Lemma py_int_nonneg s n : minus_free s -> py_int s = Some n -> 0 <= n.
Proof.
  intros Hs. apply minus_free_skip_space in Hs. unfold py_int.
  destruct (skip_space s) as [|c r] eqn:E; [discriminate|].
  inversion Hs as [|? ? Hc Hr]; subst.
  destruct (Ascii.eqb c "+").
  - destruct r as [|c' r']; [discriminate|].
    destruct (Ascii.eqb c' "_"); [discriminate|].
    destruct (scan_digits (c' :: r') 0 0 false) as [[[v nd] rest]|] eqn:Hsc;
      [|discriminate].
    destruct nd; [discriminate|]. destruct (skip_space rest); [|discriminate].
    destruct (max_str_digits <? Z.of_nat (S nd)); [discriminate|].
    intros [= <-]. now apply (scan_digits_nonneg _ _ _ _ _ _ _ (Z.le_refl 0) Hsc).
  - destruct (Ascii.eqb c "-") eqn:Em.
    { apply Ascii.eqb_eq in Em. contradiction. }
    destruct (Ascii.eqb c "_"); [discriminate|].
    destruct (scan_digits (c :: r) 0 0 false) as [[[v nd] rest]|] eqn:Hsc;
      [|discriminate].
    destruct nd; [discriminate|]. destruct (skip_space rest); [|discriminate].
    destruct (max_str_digits <? Z.of_nat (S nd)); [discriminate|].
    intros [= <-]. now apply (scan_digits_nonneg _ _ _ _ _ _ _ (Z.le_refl 0) Hsc).
Qed.

Lemma minus_free_firstn n s : minus_free s -> minus_free (firstn n s).
Proof.
  intros H. revert n. induction H as [|c s Hc Hs IH]; intros [|n];
    cbn [firstn]; try (constructor; fail).
  constructor; [exact Hc|apply IH].
Qed.

Lemma minus_free_skipn n s : minus_free s -> minus_free (skipn n s).
Proof.
  intros H. revert n. induction H as [|c s Hc Hs IH]; intros [|n];
    cbn [skipn]; try (constructor; fail).
  - now constructor.
  - apply IH.
Qed.

Lemma minus_free_slice data lo hi : minus_free data -> minus_free (slice data lo hi).
Proof.
  intros H. unfold slice. now apply minus_free_firstn, minus_free_skipn.
Qed.

(** In a buffer without a minus sign [decode_string] does not end
    before its start. *)
Lemma decode_string_advances data pos s e :
  minus_free data -> 0 <= pos ->
  decode_string (BufBytes data) pos = Ok (s, e) -> pos <= e.
Proof.
  intros Hm Hp. unfold decode_string. cbn [bind].
  destruct (find data ":" pos =? -1) eqn:E; [discriminate|].
  apply Z.eqb_neq in E.
  destruct (py_int (slice data pos (find data ":" pos))) as [length|] eqn:Hl;
    [|discriminate].
  destruct (len _ <? length); [discriminate|].
  intros [= _ <-].
  apply py_int_nonneg in Hl; [|now apply minus_free_slice].
  destruct (find_ge data ":" pos Hp) as [H|H]; [contradiction|lia].
Qed.

Lemma decode_integer_advances data pos n e :
  0 <= pos -> decode_integer (BufBytes data) pos = Ok (n, e) -> pos + 1 <= e.
Proof.
  intros Hp. unfold decode_integer. cbn [bind].
  destruct (getitem data pos) as [c|] eqn:Hc; cbn [bind]; [|discriminate].
  destruct (ord c =? ord "i") eqn:Hi; cbn [negb]; [|discriminate].
  apply ord_eqb_eq in Hi. subst c.
  destruct (find data "e" pos =? -1) eqn:E; [discriminate|].
  destruct (py_int _); [|discriminate].
  intros [= _ <-]. apply Z.eqb_neq in E.
  destruct (find_range data "e" pos) as [H|[H1 H2]]; [contradiction|].
  destruct (find_ge data "e" pos Hp) as [H|H]; [contradiction|].
  destruct (Z.eq_dec (find data "e" pos) pos) as [Heq|]; [|lia].
  rewrite Heq, Hc in H2. discriminate H2.
Qed.

Lemma ends_from_bind {A C} lo (r : fueled A) (k : A -> fueled (C * Z)) :
  (forall x, r = Some (Ok x) -> ends_from lo (k x)) -> ends_from lo (fbind r k).
Proof.
  intros Hk a e. destruct r as [[x|]|]; cbn [fbind]; try discriminate.
  now apply Hk.
Qed.

Lemma ends_from_le {A} lo lo' (r : fueled (A * Z)) :
  lo <= lo' -> ends_from lo' r -> ends_from lo r.
Proof. intros H Hr a e He. specialize (Hr a e He). lia. Qed.

(** In a buffer without a minus sign the cursor of the loops only moves
    forward: a call that starts at [pos] ends after [pos], a loop that
    is at [p] ends at [p] or later. *)
Lemma containers_advance data (Hm : minus_free data) fuel :
  (forall pos, 0 <= pos ->
     ends_from (pos + 1) (decode_list fuel (BufBytes data) pos))
  /\ (forall p contents, 0 <= p ->
        ends_from p (decode_list_loop fuel data p contents))
  /\ (forall pos, 0 <= pos ->
        ends_from (pos + 1) (decode_dictionary fuel (BufBytes data) pos))
  /\ (forall p result, 0 <= p ->
        ends_from p (decode_dictionary_loop fuel data p result)).
Proof.
  induction fuel as [|fuel (IHl & IHll & IHd & IHdl)].
  { split; [|split; [|split]]; unfold ends_from; intros; discriminate. }
  split; [|split; [|split]].
  - intros pos Hp. rewrite decode_list_S.
    intros a e. unfold fbind, lift.
    destruct (getitem data pos) as [c|]; [|discriminate].
    destruct (negb (ord c =? ord "l")); [discriminate|].
    apply IHll. lia.
  - intros p contents Hp. rewrite decode_list_loop_S.
    destruct (p <? len data); [|intros ? ?; discriminate].
    unfold fbind at 1. unfold lift at 1.
    destruct (getitem data p) as [c|]; [|intros ? ?; discriminate].
    destruct (ord c =? ord "i").
    { apply ends_from_bind. intros [n e1] H1. unfold lift in H1.
      injection H1 as H1. apply decode_integer_advances in H1; [|exact Hp].
      apply (ends_from_le _ (e1 + 1)); [lia|]. apply IHll. lia. }
    destruct ((ord "0" <=? ord c) && (ord c <=? ord "9")).
    { apply ends_from_bind. intros [s e1] H1. unfold lift in H1.
      injection H1 as H1. apply decode_string_advances in H1; trivial.
      apply (ends_from_le _ (e1 + 1)); [lia|]. apply IHll. lia. }
    destruct (ord c =? ord "l").
    { apply ends_from_bind. intros [l e1] H1. apply (IHl p Hp) in H1.
      apply (ends_from_le _ (e1 + 1)); [lia|]. apply IHll. lia. }
    destruct (ord c =? ord "d").
    { apply ends_from_bind. intros [d e1] H1. apply (IHd p Hp) in H1.
      apply (ends_from_le _ (e1 + 1)); [lia|]. apply IHll. lia. }
    destruct (ord c =? ord "e"); [|intros ? ?; discriminate].
    intros a e [= _ <-]. lia.
  - intros pos Hp. rewrite decode_dictionary_S.
    intros a e. unfold fbind, lift.
    destruct (getitem data pos) as [c|]; [|discriminate].
    destruct (negb (ord c =? ord "d")); [discriminate|].
    apply IHdl. lia.
  - intros p result Hp. rewrite decode_dictionary_loop_S.
    destruct (p <? len data); [|intros ? ?; discriminate].
    unfold fbind at 1. unfold lift at 1.
    destruct (getitem data p) as [c|]; [|intros ? ?; discriminate].
    destruct (ord c =? ord "e"); [intros a e [= _ <-]; lia|].
    apply ends_from_bind. intros [key e0] H0. unfold lift in H0.
    injection H0 as H0. apply decode_string_advances in H0; trivial.
    cbv zeta. unfold fbind at 1. unfold lift at 1.
    destruct (getitem data (e0 + 1)) as [c'|]; [|intros ? ?; discriminate].
    assert (Hq : 0 <= e0 + 1) by lia.
    destruct (ord c' =? ord "i").
    { apply ends_from_bind. intros [n e1] H1. unfold lift in H1.
      injection H1 as H1. apply decode_integer_advances in H1; [|exact Hq].
      apply (ends_from_le _ (e1 + 1)); [lia|]. apply IHdl. lia. }
    destruct ((ord "0" <=? ord c') && (ord c' <=? ord "9")).
    { apply ends_from_bind. intros [s e1] H1. unfold lift in H1.
      injection H1 as H1. apply decode_string_advances in H1; trivial.
      apply (ends_from_le _ (e1 + 1)); [lia|]. apply IHdl. lia. }
    destruct (ord c' =? ord "l").
    { apply ends_from_bind. intros [l e1] H1. apply (IHl _ Hq) in H1.
      apply (ends_from_le _ (e1 + 1)); [lia|]. apply IHdl. lia. }
    destruct (ord c' =? ord "d"); [|intros ? ?; discriminate].
    apply ends_from_bind. intros [d e1] H1. apply (IHd _ Hq) in H1.
    apply (ends_from_le _ (e1 + 1)); [lia|]. apply IHdl. lia.
Qed.

Lemma halts_bind {A C} (r : fueled A) (k : A -> fueled C) :
  halts r -> (forall x, r = Some (Ok x) -> halts (k x)) -> halts (fbind r k).
Proof.
  unfold halts. intros Hr Hk.
  destruct r as [[x|e]|]; cbn [fbind]; [now apply Hk|discriminate|contradiction].
Qed.

Lemma halts_lift {A} (r : outcome A) : halts (lift r).
Proof. discriminate. Qed.

Lemma getitem_inside data pos c :
  0 <= pos -> getitem data pos = Ok c -> pos < len data.
Proof.
  intros Hp. unfold getitem.
  destruct (pos <? 0) eqn:E; [apply Z.ltb_lt in E; lia|]. rewrite E.
  cbn [orb]. destruct (len data <=? pos) eqn:E2; [discriminate|].
  intros _. now apply Z.leb_gt in E2.
Qed.

Lemma minus_free_test data :
  forallb (fun c => negb (Ascii.eqb c "-")) data = true -> minus_free data.
Proof.
  induction data as [|c data IH]; cbn [forallb]; [constructor|].
  intros H. apply andb_true_iff in H as [H1 H2].
  constructor; [|now apply IH].
  intros ->. discriminate H1.
Qed.

Lemma containers_halt data (Hm : minus_free data) fuel :
  (forall pos, 0 <= pos -> (call_fuel data pos <= fuel)%nat ->
     halts (decode_list fuel (BufBytes data) pos))
  /\ (forall p contents, 0 <= p -> (loop_fuel data p <= fuel)%nat ->
        halts (decode_list_loop fuel data p contents))
  /\ (forall pos, 0 <= pos -> (call_fuel data pos <= fuel)%nat ->
        halts (decode_dictionary fuel (BufBytes data) pos))
  /\ (forall p result, 0 <= p -> (loop_fuel data p <= fuel)%nat ->
        halts (decode_dictionary_loop fuel data p result)).
Proof.
  unfold call_fuel, loop_fuel.
  induction fuel as [|fuel (IHl & IHll & IHd & IHdl)].
  { split; [|split; [|split]]; intros; lia. }
  destruct (containers_advance data Hm fuel) as (Al & _ & Ad & _).
  split; [|split; [|split]].
  - intros pos Hp Hf. rewrite decode_list_S.
    apply halts_bind; [apply halts_lift|]. intros c Hc.
    unfold lift in Hc. injection Hc as Hc.
    apply getitem_inside in Hc; [|exact Hp].
    destruct (negb (ord c =? ord "l")); [discriminate|].
    apply IHll; lia.
  - intros p contents Hp Hf. rewrite decode_list_loop_S.
    destruct (p <? len data) eqn:E; [|discriminate].
    apply Z.ltb_lt in E.
    apply halts_bind; [apply halts_lift|]. intros c _.
    destruct (ord c =? ord "i").
    { apply halts_bind; [apply halts_lift|]. intros [n e1] H1.
      unfold lift in H1. injection H1 as H1.
      apply decode_integer_advances in H1; [|exact Hp]. apply IHll; lia. }
    destruct ((ord "0" <=? ord c) && (ord c <=? ord "9")).
    { apply halts_bind; [apply halts_lift|]. intros [s e1] H1.
      unfold lift in H1. injection H1 as H1.
      apply decode_string_advances in H1; trivial. apply IHll; lia. }
    destruct (ord c =? ord "l").
    { apply halts_bind; [apply IHl; lia|]. intros [l e1] H1.
      apply (Al p Hp) in H1. apply IHll; lia. }
    destruct (ord c =? ord "d").
    { apply halts_bind; [apply IHd; lia|]. intros [d e1] H1.
      apply (Ad p Hp) in H1. apply IHll; lia. }
    destruct (ord c =? ord "e"); discriminate.
  - intros pos Hp Hf. rewrite decode_dictionary_S.
    apply halts_bind; [apply halts_lift|]. intros c Hc.
    unfold lift in Hc. injection Hc as Hc.
    apply getitem_inside in Hc; [|exact Hp].
    destruct (negb (ord c =? ord "d")); [discriminate|].
    apply IHdl; lia.
  - intros p result Hp Hf. rewrite decode_dictionary_loop_S.
    destruct (p <? len data) eqn:E; [|discriminate].
    apply Z.ltb_lt in E.
    apply halts_bind; [apply halts_lift|]. intros c _.
    destruct (ord c =? ord "e"); [discriminate|].
    apply halts_bind; [apply halts_lift|]. intros [key e0] H0.
    unfold lift in H0. injection H0 as H0.
    apply decode_string_advances in H0; trivial. cbv zeta.
    assert (Hq : 0 <= e0 + 1) by lia.
    apply halts_bind; [apply halts_lift|]. intros c' Hc'.
    unfold lift in Hc'. injection Hc' as Hc'.
    apply getitem_inside in Hc'; [|exact Hq].
    destruct (ord c' =? ord "i").
    { apply halts_bind; [apply halts_lift|]. intros [n e1] H1.
      unfold lift in H1. injection H1 as H1.
      apply decode_integer_advances in H1; [|exact Hq]. apply IHdl; lia. }
    destruct ((ord "0" <=? ord c') && (ord c' <=? ord "9")).
    { apply halts_bind; [apply halts_lift|]. intros [s e1] H1.
      unfold lift in H1. injection H1 as H1.
      apply decode_string_advances in H1; trivial. apply IHdl; lia. }
    destruct (ord c' =? ord "l").
    { apply halts_bind; [apply IHl; lia|]. intros [l e1] H1.
      apply (Al _ Hq) in H1. apply IHdl; lia. }
    destruct (ord c' =? ord "d"); [|discriminate].
    apply halts_bind; [apply IHd; lia|]. intros [d e1] H1.
    apply (Ad _ Hq) in H1. apply IHdl; lia.
Qed.

(** X18: on a buffer without a minus sign, from a position that is
    not negative, [decode], [decode_list] and [decode_dictionary] return
    or raise: two units of fuel for each byte of the buffer, and one
    more, are always enough. *)
Theorem decoder_halts_without_minus data pos fuel :
  minus_free data -> 0 <= pos ->
  (2 * List.length data + 1 <= fuel)%nat ->
  halts (decode fuel (BufBytes data) pos)
  /\ halts (decode_list fuel (BufBytes data) pos)
  /\ halts (decode_dictionary fuel (BufBytes data) pos).
Proof.
  intros Hm Hp Hf.
  destruct (containers_halt data Hm fuel) as (Hl & _ & Hd & _).
  assert (Hc : (call_fuel data pos <= fuel)%nat).
  { unfold call_fuel, len. lia. }
  split; [|split; [now apply Hl | now apply Hd]].
  unfold decode.
  apply halts_bind; [apply halts_lift|]. intros d Hd'.
  unfold lift in Hd'. injection Hd' as <-.
  apply halts_bind; [apply halts_lift|]. intros c _.
  destruct (ord c =? ord "i").
  { apply halts_bind; [apply halts_lift|]. intros [? ?] _. discriminate. }
  destruct ((ord "0" <=? ord c) && (ord c <=? ord "9")).
  { apply halts_bind; [apply halts_lift|]. intros [? ?] _. discriminate. }
  destruct (ord c =? ord "l").
  { apply halts_bind; [now apply Hl|]. intros [? ?] _. discriminate. }
  destruct (ord c =? ord "d"); [|discriminate].
  apply halts_bind; [now apply Hd|]. intros [? ?] _. discriminate.
Qed.

Lemma decoder_halts_without_minus_witness :
  halts (decode 15 (BufBytes (B "ld3:key")) 0)
  /\ halts (decode_list 15 (BufBytes (B "ld3:key")) 0)
  /\ halts (decode_dictionary 15 (BufBytes (B "ld3:key")) 0).
Proof.
  apply (decoder_halts_without_minus (B "ld3:key") 0 15);
    [apply minus_free_test; reflexivity | lia | cbn; lia].
Defined.

(** ** Containers cut short *)

Lemma dispatch_inside fuel data p r :
  0 <= p -> dispatch fuel data p = Some r -> (p <? len data) = true.
Proof.
  intros Hp. unfold dispatch.
  destruct (getitem data p) as [c|] eqn:Hc; [|discriminate].
  intros _. apply Z.ltb_lt. now apply (getitem_inside data p c).
Qed.

(** The loop of [decode_list] over the encodings of the items [l], with
    anything after them: [length l] turns of the loop add [l] to the
    contents and leave the cursor after the encodings. *)
Lemma items_passed l :
  forall fuel body data pre rest contents,
    forallb bencodable l = true ->
    encode_items l = Ok body ->
    (items_size l <= fuel)%nat ->
    data = pre ++ body ++ rest ->
    decode_list_loop (List.length l + fuel) data (len pre) contents =
    decode_list_loop fuel data (len pre + len body) (contents ++ l).
Proof.
  induction l as [|x l IH];
    intros fuel body data pre rest contents Hb He Hs ->.
  - apply Ok_inj in He. subst body. change (len []) with 0.
    now rewrite Z.add_0_r, List.app_nil_r.
  - cbn [forallb] in Hb. apply andb_true_iff in Hb as [Hx Hl].
    cbn [encode_items] in He.
    destruct (encode x) as [xe|] eqn:Hxe; [|discriminate He].
    destruct (encode_items l) as [r|] eqn:Hr; [|discriminate He].
    cbn [bind] in He. apply Ok_inj in He. subst body.
    cbn [items_size fold_right] in Hs. fold (items_size l) in Hs.
    destruct (decode_encoded (List.length l + fuel)) as [Hv _].
    assert (Hd : dispatch (List.length l + fuel) (pre ++ (xe ++ r) ++ rest)
                   (len pre) = Some (Some (Ok (x, len pre + len xe - 1)))).
    { apply (Hv x xe _ pre (r ++ rest)); trivial; [lia|].
      now rewrite <- !List.app_assoc. }
    cbn [List.length Nat.add].
    rewrite (decode_list_loop_step _ _ _ _ _
               (dispatch_inside _ _ _ _ (len_nonneg pre) Hd) Hd).
    cbn [fbind].
    replace (len pre + len xe - 1 + 1) with (len (pre ++ xe))
      by (rewrite len_app; lia).
    rewrite (IH fuel r _ (pre ++ xe) rest (contents ++ [x])); trivial.
    + rewrite !len_app. f_equal; [lia|].
      now rewrite <- List.app_assoc.
    + lia.
    + now rewrite <- !List.app_assoc.
Qed.

(** The same for the loop of [decode_dictionary]. *)
Lemma pairs_passed d :
  forall fuel body data pre rest result,
    forallb bencodable_pair d = true ->
    encode_pairs d = Ok body ->
    (pairs_size d <= fuel)%nat ->
    data = pre ++ body ++ rest ->
    decode_dictionary_loop (List.length d + fuel) data (len pre) result =
    decode_dictionary_loop fuel data (len pre + len body) (assign_all d result).
Proof.
  induction d as [|[key x] d IH];
    intros fuel body data pre rest result Hb He Hs ->.
  - apply Ok_inj in He. subst body. change (len []) with 0.
    now rewrite Z.add_0_r.
  - cbn [forallb] in Hb. apply andb_true_iff in Hb as [Hx Hd].
    unfold bencodable_pair in Hx. cbn [fst snd] in Hx.
    destruct key as [| |s| | | | |]; try discriminate Hx.
    cbn [encode_pairs is_string] in He.
    destruct (encode_string (VBytes s)) as [k0|] eqn:Hk0; [|discriminate He].
    apply encode_bytes_Ok in Hk0 as [-> Hm].
    cbn [bind] in He.
    rewrite (bencodable_supported_kind x Hx) in He.
    destruct (encode x) as [xe|] eqn:Hxe; [|discriminate He].
    destruct (encode_pairs d) as [r|] eqn:Hr; [|discriminate He].
    cbn [bind] in He. apply Ok_inj in He. subst body.
    unfold pairs_size in Hs. cbn [fold_right snd] in Hs.
    fold (pairs_size d) in Hs.
    destruct (decode_encoded (List.length d + fuel)) as [Hv _].
    set (k := str_int (len s) ++ B ":" ++ s).
    destruct (str_int_nonneg_head (len s) (len_nonneg s)) as (c & t & Hh & Hc).
    assert (Hdata : pre ++ (k ++ xe ++ r) ++ rest
                    = pre ++ str_int (len s) ++ B ":" ++ s
                        ++ (xe ++ r ++ rest)).
    { unfold k. now rewrite <- !List.app_assoc. }
    assert (Hlen : len pre + len (str_int (len s)) + len s + 1 = len (pre ++ k)).
    { unfold k. rewrite !len_app. change (len (B ":")) with 1. lia. }
    assert (Hg : getitem (pre ++ (k ++ xe ++ r) ++ rest) (len pre) = Ok c).
    { rewrite Hdata, Hh. cbn [List.app]. apply getitem_app. }
    cbn [List.length Nat.add].
    rewrite (decode_dictionary_loop_step (List.length d + fuel) _ _ _ c s
               (len pre + len (str_int (len s)) + len s)
               (Some (Ok (x, len (pre ++ k) + len xe - 1)))).
    + cbn [fbind].
      replace (len (pre ++ k) + len xe - 1 + 1) with (len ((pre ++ k) ++ xe))
        by (rewrite !len_app; lia).
      rewrite (IH fuel r _ ((pre ++ k) ++ xe) rest (dict_setitem result s x));
        trivial.
      * cbn [assign_all fold_left fst snd].
        rewrite <- List.app_assoc, !len_app. f_equal. lia.
      * lia.
      * now rewrite <- !List.app_assoc.
    + apply Z.ltb_lt. apply (getitem_inside _ _ c (len_nonneg pre) Hg).
    + exact Hg.
    + now apply digit_is_not.
    + rewrite Hdata. now apply decode_string_at.
    + rewrite Hlen.
      apply (Hv x xe _ (pre ++ k) (r ++ rest)); trivial; [lia|].
      now rewrite <- !List.app_assoc.
Qed.

(** X19: a list that is not closed.  The buffer made of [l] and the
    encodings of any items, with no [e] after them, raises
    [DecodeListError]. *)
Theorem decode_unterminated_list l body fuel :
  forallb bencodable l = true ->
  encode_items l = Ok body ->
  decode (3 + List.length l + items_size l + fuel) (BufBytes (B "l" ++ body)) 0
  = Some (Raise DecodeListError).
Proof.
  intros Hb He.
  rewrite (decode_dispatch _ _ _ (Some (Raise DecodeListError)));
    [reflexivity|].
  rewrite dispatch_list by reflexivity.
  cbn [Nat.add]. rewrite decode_list_S.
  change (getitem (B "l" ++ body) 0) with (Ok "l"%char).
  cbn [fbind lift]. change (negb (ord "l" =? ord "l")) with false. cbv iota.
  replace (S (S (List.length l + items_size l + fuel)))
    with (List.length l + S (S (items_size l + fuel)))%nat by lia.
  rewrite (items_passed l _ body _ (B "l") [] []); trivial;
    [|lia|now rewrite List.app_nil_r].
  rewrite decode_list_loop_S.
  replace (len (B "l") + len body <? len (B "l" ++ body)) with false;
    [reflexivity|].
  symmetry. apply Z.ltb_ge. rewrite len_app. lia.
Qed.

(** X20: a dictionary that is not closed.  When the buffer ends
    after the encodings of complete items, [decode] raises
    [DecodeDictionaryError]; when it ends after the encoding [k] of a
    key, the read of the byte after the key raises [IndexError]. *)
Theorem decode_unterminated_dictionary d body key k fuel :
  forallb bencodable_pair d = true ->
  encode_pairs d = Ok body ->
  encode_string (VBytes key) = Ok k ->
  decode (3 + List.length d + pairs_size d + fuel)
    (BufBytes (B "d" ++ body)) 0
  = Some (Raise DecodeDictionaryError)
  /\ decode (3 + List.length d + pairs_size d + fuel)
       (BufBytes (B "d" ++ body ++ k)) 0
     = Some (Raise IndexError).
Proof.
  intros Hb He Hk. apply encode_bytes_Ok in Hk as [Hk Hm]. split.
  - rewrite (decode_dispatch _ _ _ (Some (Raise DecodeDictionaryError)));
      [reflexivity|].
    rewrite dispatch_dictionary by reflexivity.
    cbn [Nat.add]. rewrite decode_dictionary_S.
    change (getitem (B "d" ++ body) 0) with (Ok "d"%char).
    cbn [fbind lift]. change (negb (ord "d" =? ord "d")) with false. cbv iota.
    replace (S (S (List.length d + pairs_size d + fuel)))
      with (List.length d + S (S (pairs_size d + fuel)))%nat by lia.
    rewrite (pairs_passed d _ body _ (B "d") [] []); trivial;
      [|lia|now rewrite List.app_nil_r].
    rewrite decode_dictionary_loop_S.
    replace (len (B "d") + len body <? len (B "d" ++ body)) with false;
      [reflexivity|].
    symmetry. apply Z.ltb_ge. rewrite len_app. lia.
  - rewrite (decode_dispatch _ _ _ (Some (Raise IndexError)));
      [reflexivity|].
    rewrite dispatch_dictionary by reflexivity.
    cbn [Nat.add]. rewrite decode_dictionary_S.
    change (getitem (B "d" ++ body ++ k) 0) with (Ok "d"%char).
    cbn [fbind lift]. change (negb (ord "d" =? ord "d")) with false. cbv iota.
    replace (S (S (List.length d + pairs_size d + fuel)))
      with (List.length d + S (S (pairs_size d + fuel)))%nat by lia.
    rewrite (pairs_passed d _ body _ (B "d") k []); trivial; [|lia].
    destruct (str_int_nonneg_head (len key) (len_nonneg key))
      as (c & t & Hh & Hc).
    assert (Hdata : B "d" ++ body ++ k
                    = (B "d" ++ body) ++ str_int (len key) ++ B ":" ++ key ++ []).
    { rewrite Hk. now rewrite List.app_nil_r, <- !List.app_assoc. }
    assert (Hg : getitem (B "d" ++ body ++ k) (len (B "d") + len body) = Ok c).
    { rewrite Hdata, Hh, <- len_app. cbn [List.app]. apply getitem_app. }
    rewrite decode_dictionary_loop_S.
    rewrite (proj2 (Z.ltb_lt _ _)
               (getitem_inside _ _ c
                  (Z.add_nonneg_nonneg _ _ (len_nonneg _) (len_nonneg _)) Hg)).
    rewrite Hg. cbn [fbind lift].
    rewrite (digit_is_not c "e" Hc eq_refl).
    rewrite Hdata at 1. rewrite <- len_app, decode_string_at by exact Hm.
    cbv iota beta zeta.
    rewrite getitem_outside; [reflexivity|].
    left. rewrite Hk, !len_app. change (len (B ":")) with 1. lia.
Qed.

Lemma decode_unterminated_list_witness :
  decode (3 + 2 + 4 + 0) (BufBytes (B "l" ++ B "i1el3:abce")) 0
  = Some (Raise DecodeListError).
Proof.
  apply (decode_unterminated_list
           [VInt 1; VList [VBytes (B "abc")]] (B "i1el3:abce") 0);
    reflexivity.
Defined.

Lemma decode_unterminated_dictionary_witness :
  decode (3 + 1 + 2 + 0) (BufBytes (B "d" ++ B "1:ai1e")) 0
  = Some (Raise DecodeDictionaryError)
  /\ decode (3 + 1 + 2 + 0)
       (BufBytes (B "d" ++ B "1:ai1e" ++ B "3:key")) 0
     = Some (Raise IndexError).
Proof.
  apply (decode_unterminated_dictionary
           [(VBytes (B "a"), VInt 1)] (B "1:ai1e") (B "key") (B "3:key") 0);
    reflexivity.
Defined.

(** ** Integers proper *)

(** X21: for an integer [n] that is not a [bool], the decimal digits
    of its absolute value are at least one digit, with no zero before
    another digit, and read as that value.  When they are at most
    [max_str_digits], [encode_integer] writes [i], a minus sign exactly
    when [n] is negative, the digits and [e] (never [-0]); when they are
    more, it raises [ValueError]. *)
Theorem encode_integer_decimal n :
  let ds := str_int (Z.abs n) in
  ds <> []
  /\ Forall (fun c => is_digit c = true) ds
  /\ (forall r, ds = "0"%char :: r -> r = [] /\ n = 0)
  /\ scan_digits ds 0 0 false = Some (Z.abs n, List.length ds, [])
  /\ encode_integer (VInt n)
     = (if len ds <=? max_str_digits
        then Ok (B "i" ++ (if n <? 0 then B "-" else []) ++ ds ++ B "e")
        else Raise ValueError).
Proof. apply encode_integer_minimal. Qed.
